(** * Awesome-LLM-Training: label-masking tokenization and the DDP trainer

  A shallow embedding of

  - [src/sft/code/prepare_data.py]: [apply_input_output_template],
    [preprocess_chat_dataset] and [SFTDataset];
  - [src/tutorial/ddp/chargpt/trainer.py]: the [Trainer] class
    ([__init__], [_save_snapshot], [_load_snapshot], [_run_batch],
    [_run_epoch], [train]).

  Python lists are mutable objects: they live in a store and the [data]
  dictionary of [preprocess_chat_dataset] holds references to them.  The
  trainer talks to torch, to the file system and to stdout: its methods are
  written in a state-and-exception monad over a record holding the trainer
  object, the torch side, the files and the trace of external calls. *)

From stdpp Require Import gmap strings list fin_maps.
From Stdlib Require Import ZArith Lia Ascii.

Local Open Scope Z_scope.

(** ** Python list operations *)

Module Py.

(** [l[:n]] for an integer [n]: a negative bound counts from the end, and
    every bound is clamped to the length. *)
Definition slice_to {A} (n : Z) (l : list A) : list A :=
  if n <? 0 then take (Z.to_nat (Z.of_nat (length l) + n)) l
  else take (Z.to_nat n) l.

(** [[x] * k]: empty as soon as [k <= 0]. *)
Definition repeat_list {A} (x : A) (k : Z) : list A :=
  replicate (Z.to_nat k) x.

(** [l[a:b] = vals] for bounds [a], [b] that are lengths (so never
    negative): both bounds are clamped to [len(l)], an upper bound below the
    lower one is raised to it, and the slice is replaced by [vals], whatever
    the length of [vals]. *)
Definition slice_assign {A} (l : list A) (a b : nat) (vals : list A) : list A :=
  let lo := (a `min` length l)%nat in
  let hi := (lo `max` (b `min` length l))%nat in
  take lo l ++ vals ++ drop hi l.

(** [range(a, b)] *)
Definition range (a b : Z) : list Z :=
  (λ i : nat, a + Z.of_nat i) <$> seq 0 (Z.to_nat (b - a)).

End Py.

(** ** The store of Python list objects *)

Abbreviation loc := positive.
Abbreviation heap := (gmap loc (list Z)).

Definition alloc (v : list Z) (h : heap) : loc * heap :=
  let l := fresh (dom h) in (l, <[l := v]> h).

Definition deref (h : heap) (l : loc) : list Z := default [] (h !! l).

(** ** prepare_data.py *)

Record Turn := mkTurn { role : string; content : string }.

(** The tokenizer is an external collaborator; [apply_chat_template msgs g]
    stands for [tokenizer.apply_chat_template(msgs, add_generation_prompt=g)],
    which returns a new list of token ids at each call. *)
Record Tokenizer := { apply_chat_template : list Turn → bool → list Z }.

(** The [data] dictionary: three keys, each bound to a list object. *)
Record Data := mkData { input_ids : loc; labels : loc; attention_mask : loc }.

(** What [data] denotes in a store. *)
Record TokenizedExample :=
  mkExample { ex_input_ids : list Z; ex_labels : list Z; ex_attention_mask : list Z }.

Definition view (h : heap) (d : Data) : TokenizedExample :=
  {| ex_input_ids := deref h (input_ids d);
     ex_labels := deref h (labels d);
     ex_attention_mask := deref h (attention_mask d) |}.

(** The default of the keyword parameter [INGORE_INDEX] (the source's
    spelling); no caller passes another value. *)
Definition INGORE_INDEX : Z := -100.

Definition is_assistant (m : Turn) : bool := bool_decide (role m = "assistant").

Section preprocess.
Variable tokenizer : Tokenizer.
Variable messages : list Turn.

Definition message_start_idx (idx : nat) : nat :=
  if (idx =? 0)%nat then 0%nat
  else length (apply_chat_template tokenizer (take idx messages) false).

(** [idx < len(messages) - 1 and messages[idx + 1]["role"] == "assistant"];
    the first conjunct keeps the subscript in range. *)
Definition next_is_assistant (idx : nat) : bool :=
  (Z.of_nat idx <? Z.of_nat (length messages) - 1)
  && match messages !! S idx with
     | Some m => is_assistant m
     | None => false
     end.

Definition message_end_idx (idx : nat) : nat :=
  if next_is_assistant idx
  then length (apply_chat_template tokenizer (take (idx + 1) messages) true)
  else length (apply_chat_template tokenizer (take (idx + 1) messages) false).

(** One iteration of [for idx, message in enumerate(messages)]. *)
Definition mask_turn (data : Data) (idx : nat) (message : Turn) (h : heap) : heap :=
  if negb (is_assistant message) then
    let s := message_start_idx idx in
    let e := message_end_idx idx in
    <[labels data :=
        Py.slice_assign (deref h (labels data)) s e
          (Py.repeat_list INGORE_INDEX (Z.of_nat e - Z.of_nat s))]> h
  else h.

(** The loop, from index [idx] on, over the turns [rest] still to visit. *)
Fixpoint mask_loop (data : Data) (idx : nat) (rest : list Turn) (h : heap) : heap :=
  match rest with
  | [] => h
  | message :: rest' => mask_loop data (S idx) rest' (mask_turn data idx message h)
  end.

(** The three slices of the [max_length] branch each build a new list and
    rebind the key to it. *)
Definition truncate (n : Z) (data : Data) (h : heap) : Data * heap :=
  let '(i, h) := alloc (Py.slice_to n (deref h (input_ids data))) h in
  let data := mkData i (labels data) (attention_mask data) in
  let '(l, h) := alloc (Py.slice_to n (deref h (labels data))) h in
  let data := mkData (input_ids data) l (attention_mask data) in
  let '(a, h) := alloc (Py.slice_to n (deref h (attention_mask data))) h in
  (mkData (input_ids data) (labels data) a, h).

(** [messages] is the list under the key ["conversation"] of the argument;
    [config] is a dictionary, of which only the integer option
    ["max_length"] is read.  The renderings of which only [len] is taken are
    temporaries and are not given a place in the store. *)
Definition preprocess_chat_dataset (config : gmap string Z) (h : heap) : Data * heap :=
  let '(inputs, h) := alloc (apply_chat_template tokenizer messages true) h in
  let '(lab, h) := alloc (deref h inputs) h in
  let '(att, h) := alloc (Py.repeat_list 1 (Z.of_nat (length (deref h inputs)))) h in
  let data := mkData inputs lab att in
  let h := mask_loop data 0 messages h in
  match config !! "max_length" with
  | Some n => truncate n data h
  | None => (data, h)
  end.

End preprocess.

(** ** The conversation formatter *)

Definition nl : string := String "010"%char "".

(** A format string, split at its replacement fields. *)
Inductive piece := Lit (s : string) | Field (name : string).

(** The [format] method of a template, called with keyword arguments; a
    field without an argument raises [KeyError]. *)
Fixpoint format (template : list piece) (kwargs : gmap string string) : option string :=
  match template with
  | [] => Some ""
  | Lit s :: template' => String.append s <$> format template' kwargs
  | Field name :: template' =>
      v ← kwargs !! name;
      String.append v <$> format template' kwargs
  end.

Definition prompt_template : list piece :=
  [Lit nl; Field "question"; Lit nl].

Definition response_template : list piece :=
  [Lit (nl +:+ "# Thinking" +:+ nl +:+ nl +:+ nl); Field "cot";
   Lit (nl +:+ nl +:+ nl +:+ "## Final Response" +:+ nl +:+ nl +:+ nl);
   Field "response"; Lit nl].

(** The dictionary [{"conversation": convs}]. *)
Record ChatExample := { conversation : list Turn }.

(** A raw record is a dictionary from column names to strings; a missing
    column raises [KeyError]. *)
Definition apply_input_output_template (example : gmap string string) : option ChatExample :=
  question ← example !! "Question";
  prompt ← format prompt_template {[ "question" := question ]};
  cot ← example !! "Complex_CoT";
  response ← example !! "Response";
  res ← format response_template {[ "cot" := cot; "response" := response ]};
  Some {| conversation := [mkTurn "user" prompt; mkTurn "assistant" res] |}.

(** ** trainer.py *)

(** [enumerate(l)] *)
Definition enumerate {A} (l : list A) : list (Z * A) :=
  imap (λ i x, (Z.of_nat i, x)) l.

(** The external collaborators: the torch side (model replica, gradients,
    optimizer, scaler) is a state of type [World] that only torch calls
    change; state dictionaries, batches, losses and the clipping ceiling (a
    float) are opaque values. *)
Class TorchTypes := {
  World : Type;
  MS : Type;
  OS : Type;
  Batch : Type;
  Loss : Type;
  Float : Type }.

(** The exceptions the trainer can let through: [epoch % 0]; [torch.load],
    [Snapshot(...)] or [load_state_dict] rejecting what they are given; a
    snapshot path that is [None]; [dist.gather] rejecting its arguments. *)
Inductive exn := ZeroDivisionError | LoadError | TypeError | ValueError.

Inductive result (A : Type) := Ok (a : A) | Raise (e : exn).
Arguments Ok {A} a.
Arguments Raise {A} e.

Inductive Loader := TrainLoader | TestLoader.

Section trainer_data.
Context `{TorchTypes}.

Record TrainerConfig := mkConfig {
  max_epochs : Z;
  batch_size : Z;
  data_loader_workers : Z;
  grad_norm_clip : Float;
  snapshot_path : option string;
  save_every : Z;
  use_amp : bool }.

Record Snapshot := mkSnapshot {
  model_state : MS;
  optimizer_state : OS;
  finished_epoch : Z }.

(** A file either unpickles to the dictionary of a [Snapshot] or makes
    [torch.load] / [Snapshot] raise. *)
Inductive File := FileSnapshot (s : Snapshot) | FileOther.

(** A [DataLoader] over a [DistributedSampler]: its length, and the batches
    it yields once the sampler's epoch is set. *)
Record DataLoader := mkLoader { dl_len : Z; dl_batches : Z → list Batch }.

(** Calls into torch, in the order the trainer makes them. *)
Inductive call :=
| ModelToDevice (device : Z)
| WrapDDP (device : Z)
| NewGradScaler
| LoadModelState (s : MS)
| LoadOptimizerState (s : OS)
| SetEpoch (which : Loader) (epoch : Z)
| Forward (batch : Batch) (grad_enabled autocast : bool)
| ZeroGrad
| Backward (loss : Loss)
| ScaledBackward (loss : Loss)
| ClipGradNorm (max_norm : Float)
| OptimizerStep
| ScalerStep
| ScalerUpdate
| Gather (loss : Loss) (with_list : bool).

(** Lines printed on stdout. *)
Inductive output :=
| SnapshotSaved (epoch : Z)
| SnapshotNotFound
| Resuming (epoch : Z)
| TrainLoss (gpu epoch iter : Z) (loss : Loss)
| EvalLoss (gpu epoch iter : Z) (loss : Loss).

Inductive event :=
| Torch (c : call)
| Print (o : output)
| TorchSave (path : string) (s : Snapshot).

Record Trainer := mkTrainer {
  config : TrainerConfig;
  local_rank : Z;
  world_size : Z;
  global_rank : Z;
  train_dataloader : DataLoader;
  test_dataloader : DataLoader;
  epochs_run : Z;
  self_save_every : Z;
  has_scaler : bool }.

Record state := mkState {
  self : Trainer;
  torch : World;
  files : gmap string File;
  trace : list event }.

End trainer_data.

(** What torch does: the effect of a call on the torch side (for
    [LoadModelState], the copy of the entries whose keys the model has); what the
    state-dictionary readers of [_save_snapshot] return ([state_dict] is
    that of [model.module] when the model has this attribute, as the DDP
    wrapper has, and of the model otherwise); whether [load_state_dict],
    called on [self.model] (the wrapper) and on the optimizer, accepts a
    dictionary (it raises otherwise); the loss a forward pass returns; the
    list [dist.gather] fills on the destination; and [torch.zeros_like].
    The module [DDPTorch] below spells out the keys of the dictionaries. *)
Class TorchOps `{TorchTypes} := {
  exec : call → World → World;
  state_dict : World → MS;
  optimizer_state_dict : World → OS;
  model_accepts : World → MS → bool;
  optimizer_accepts : World → OS → bool;
  forward_loss : World → Batch → Loss;
  gathered : World → Loss → list Loss;
  zeros_like : Loss → Loss }.

Section monad.
Context `{TorchOps}.

(** *** The monad of trainer methods: state, and exceptions that keep the
    effects made before they were raised. *)
Definition M (A : Type) : Type := state → state * result A.

Definition ret {A} (a : A) : M A := λ st, (st, Ok a).

Definition bind {A B} (m : M A) (k : A → M B) : M B :=
  λ st, match m st with
        | (st', Ok a) => k a st'
        | (st', Raise e) => (st', Raise e)
        end.

Definition raise {A} (e : exn) : M A := λ st, (st, Raise e).
Definition get : M state := λ st, (st, Ok st).
Definition log (e : event) : M unit :=
  λ st, (mkState (self st) (torch st) (files st) (trace st ++ [e]), Ok tt).
Definition torch_call (c : call) : M unit :=
  λ st, (mkState (self st) (exec c (torch st)) (files st) (trace st ++ [Torch c]),
         Ok tt).
Definition print (o : output) : M unit := log (Print o).
Definition set_self (t : Trainer) : M unit :=
  λ st, (mkState t (torch st) (files st) (trace st), Ok tt).
Definition write_file (path : string) (f : File) : M unit :=
  λ st, (mkState (self st) (torch st) (<[path := f]> (files st)) (trace st), Ok tt).

End monad.

Notation "x <- m ;; k" := (bind m (λ x, k))
  (at level 100, m at next level, right associativity).
Notation "m ;;; k" := (bind m (λ _, k))
  (at level 100, right associativity).

Section trainer.
Context `{TorchOps}.

Fixpoint for_each {A} (xs : list A) (body : A → M unit) : M unit :=
  match xs with
  | [] => ret tt
  | x :: xs' => body x ;;; for_each xs' body
  end.

Definition when (b : bool) (m : M unit) : M unit := if b then m else ret tt.

(** *** Methods *)

(** The snapshot holds the state dictionaries read at the time of the call,
    the model's from the module inside the wrapper; [torch.save] replaces
    the file at the snapshot path. *)
Definition _save_snapshot (epoch : Z) : M unit :=
  st <- get ;;
  let snapshot := mkSnapshot (state_dict (torch st))
                             (optimizer_state_dict (torch st)) epoch in
  match snapshot_path (config (self st)) with
  | None => raise TypeError
  | Some path =>
      write_file path (FileSnapshot snapshot) ;;;
      log (TorchSave path snapshot) ;;;
      print (SnapshotSaved epoch)
  end.

(** Only [FileNotFoundError] is caught: a file that is there but does not
    load, or a state dictionary that [load_state_dict] rejects, raises.  The
    model's dictionary is handed to [self.model], the wrapper; a module
    copies the entries it is given under keys of its own before it raises
    for the others, an optimizer checks the dictionary before it takes it. *)
Definition _load_snapshot : M unit :=
  st <- get ;;
  match snapshot_path (config (self st)) with
  | None => raise TypeError
  | Some path =>
      match files st !! path with
      | None => print SnapshotNotFound
      | Some FileOther => raise LoadError
      | Some (FileSnapshot snapshot) =>
          torch_call (LoadModelState (model_state snapshot)) ;;;
          (if model_accepts (torch st) (model_state snapshot)
           then ret tt
           else raise LoadError) ;;;
          st <- get ;;
          (if optimizer_accepts (torch st) (optimizer_state snapshot)
           then torch_call (LoadOptimizerState (optimizer_state snapshot))
           else raise LoadError) ;;;
          st <- get ;;
          let t := self st in
          set_self (mkTrainer (config t) (local_rank t) (world_size t)
                      (global_rank t) (train_dataloader t) (test_dataloader t)
                      (finished_epoch snapshot) (self_save_every t)
                      (has_scaler t)) ;;;
          print (Resuming (finished_epoch snapshot))
      end
  end.

(** [batch] is the pair [(source, targets)]; the forward pass runs under
    [set_grad_enabled(train)] and [autocast(enabled=use_amp)]. *)
Definition _run_batch (batch : Batch) (train : bool) : M Loss :=
  st <- get ;;
  let cfg := config (self st) in
  let loss := forward_loss (torch st) batch in
  torch_call (Forward batch train (use_amp cfg)) ;;;
  when train
    (torch_call ZeroGrad ;;;
     if use_amp cfg then
       torch_call (ScaledBackward loss) ;;;
       torch_call (ClipGradNorm (grad_norm_clip cfg)) ;;;
       torch_call ScalerStep ;;;
       torch_call ScalerUpdate
     else
       torch_call (Backward loss) ;;;
       torch_call (ClipGradNorm (grad_norm_clip cfg)) ;;;
       torch_call OptimizerStep) ;;;
  ret loss.

(** [dist.gather(tensor, gather_list, dst=0)].  Before it communicates,
    torch checks that a gather list is given on the destination rank and on
    no other rank, and raises [ValueError] otherwise.  The process group is
    the one the launcher's environment describes, so the rank of this
    process in it is RANK, which the trainer keeps as [global_rank]. *)
Definition dist_gather (tensor : Loss) (with_list : bool) : M unit :=
  st <- get ;;
  if Bool.eqb with_list (global_rank (self st) =? 0)
  then torch_call (Gather tensor with_list)
  else raise ValueError.

Definition loader_of (which : Loader) (t : Trainer) : DataLoader :=
  match which with
  | TrainLoader => train_dataloader t
  | TestLoader => test_dataloader t
  end.

(** [which] tells which of the trainer's two loaders is passed.  Moving a
    batch to the device is not recorded.  Every 100th iteration prints the
    loss (training) or gathers the losses and prints them on local rank 0
    (evaluation).  The gather list is passed by local rank, the destination
    is the worker of global rank 0. *)
Definition _run_epoch (epoch : Z) (which : Loader) (train : bool) : M unit :=
  torch_call (SetEpoch which epoch) ;;;
  st <- get ;;
  for_each (enumerate (dl_batches (loader_of which (self st)) epoch))
    (λ '(iter, batch),
       batch_loss <- _run_batch batch train ;;
       when (iter `mod` 100 =? 0)
         (st <- get ;;
          let t := self st in
          if train then
            print (TrainLoss (global_rank t) epoch iter batch_loss)
          else
            let eval_loss_list :=
              if local_rank t =? 0 then gathered (torch st) batch_loss
              else replicate (Z.to_nat (world_size t)) (zeros_like batch_loss) in
            dist_gather batch_loss (local_rank t =? 0) ;;;
            when (local_rank t =? 0)
              (for_each (enumerate eval_loss_list)
                 (λ '(i, loss), print (EvalLoss i epoch iter loss))))).

(** The body of the [for epoch in range(...)] loop of [train].  The truth
    value of [self.test_dataloader] is that of its length; [%] by zero
    raises, and [and] evaluates it on local rank 0 only. *)
Definition train_body (epoch : Z) : M unit :=
  let epoch := epoch + 1 in
  _run_epoch epoch TrainLoader true ;;;
  st <- get ;;
  let t := self st in
  (if local_rank t =? 0 then
     if self_save_every t =? 0 then raise ZeroDivisionError
     else when (epoch `mod` self_save_every t =? 0) (_save_snapshot epoch)
   else ret tt) ;;;
  when (negb (dl_len (test_dataloader t) =? 0))
    (_run_epoch epoch TestLoader false).

Definition train : M unit :=
  st <- get ;;
  for_each (Py.range (epochs_run (self st)) (max_epochs (config (self st))))
    train_body.

(** [Trainer(trainer_cfg, model, optimizer, train_dataset, test_dataset)] in
    a new process whose launcher set LOCAL_RANK, WORLD_SIZE and RANK; the two
    data loaders stand for [_prepare_dataloader] of the two datasets, [w] is
    the torch side holding the model and the optimizer passed in, [fs] the
    files.  The attributes are all set on the new object at once; none of
    the torch calls in between reads them. *)
Definition __init__ (trainer_cfg : TrainerConfig) (LOCAL_RANK WORLD_SIZE RANK : Z)
    (train_loader test_loader : DataLoader)
    (w : World) (fs : gmap string File) : state * result unit :=
  let cfg :=
    mkConfig (max_epochs trainer_cfg) (batch_size trainer_cfg)
      (data_loader_workers trainer_cfg) (grad_norm_clip trainer_cfg)
      (Some (default "snapshot.pt" (snapshot_path trainer_cfg)))
      (save_every trainer_cfg) (use_amp trainer_cfg) in
  let self0 := mkTrainer cfg LOCAL_RANK WORLD_SIZE RANK train_loader test_loader
                 0 (save_every trainer_cfg) false in
  (torch_call (ModelToDevice LOCAL_RANK) ;;;
   torch_call (WrapDDP LOCAL_RANK) ;;;
   _load_snapshot ;;;
   when (use_amp trainer_cfg)
     (torch_call NewGradScaler ;;;
      st <- get ;;
      let t := self st in
      set_self (mkTrainer (config t) (local_rank t) (world_size t)
                  (global_rank t) (train_dataloader t) (test_dataloader t)
                  (epochs_run t) (self_save_every t) true)))
    (mkState self0 w fs []).

End trainer.

(** ** Definitions used in the statements about the tokenizer *)

Definition truncated (n : Z) (ex : TokenizedExample) : TokenizedExample :=
  {| ex_input_ids := Py.slice_to n (ex_input_ids ex);
     ex_labels := Py.slice_to n (ex_labels ex);
     ex_attention_mask := Py.slice_to n (ex_attention_mask ex) |}.

Section labels.
Variable tokenizer : Tokenizer.
Variable messages : list Turn.

Local Abbreviation start_of := (message_start_idx tokenizer messages).
Local Abbreviation end_of := (message_end_idx tokenizer messages).

Definition mask_step (idx : nat) (message : Turn) (lab : list Z) : list Z :=
  if negb (is_assistant message) then
    Py.slice_assign lab (start_of idx) (end_of idx)
      (Py.repeat_list INGORE_INDEX
         (Z.of_nat (end_of idx) - Z.of_nat (start_of idx)))
  else lab.

Fixpoint mask_labels (idx : nat) (rest : list Turn) (lab : list Z) : list Z :=
  match rest with
  | [] => lab
  | message :: rest' => mask_labels (S idx) rest' (mask_step idx message lab)
  end.

(** Whether position [i] lies in the span [start:end] of a non-assistant
    turn among [rest], the turns from index [idx] on. *)
Fixpoint masked_by (idx : nat) (rest : list Turn) (i : nat) : bool :=
  match rest with
  | [] => false
  | message :: rest' =>
      (negb (is_assistant message)
       && bool_decide (start_of idx ≤ i < end_of idx)%nat)
      || masked_by (S idx) rest' i
  end.

End labels.

Section result.
Variable tokenizer : Tokenizer.
Variable messages : list Turn.

Definition rendered : list Z := apply_chat_template tokenizer messages true.

Definition masked : TokenizedExample :=
  {| ex_input_ids := rendered;
     ex_labels := mask_labels tokenizer messages 0 messages rendered;
     ex_attention_mask := Py.repeat_list 1 (Z.of_nat (length rendered)) |}.

Definition tokenized (config : gmap string Z) : TokenizedExample :=
  match config !! "max_length" with
  | Some n => truncated n masked
  | None => masked
  end.

(** The dictionary and the store after the three allocations and the
    loop: three distinct new objects, nothing else touched. *)
Definition masked_data (h : heap) : Data :=
  let '(i, h) := alloc rendered h in
  let '(l, h) := alloc rendered h in
  let '(a, h) := alloc (Py.repeat_list 1 (Z.of_nat (length rendered))) h in
  mkData i l a.

Definition masked_heap (h : heap) : heap :=
  <[labels (masked_data h) := ex_labels masked]>
    (<[attention_mask (masked_data h) := ex_attention_mask masked]>
       (<[input_ids (masked_data h) := rendered]> h)).

End result.

Section spans.
Variable tokenizer : Tokenizer.
Variable messages : list Turn.

Local Abbreviation start_of := (message_start_idx tokenizer messages).
Local Abbreviation end_of := (message_end_idx tokenizer messages).
Local Abbreviation n := (length messages).

(** Length of the rendering of the first [k] turns. *)
Definition plen (k : nat) (g : bool) : nat :=
  length (apply_chat_template tokenizer (take k messages) g).

(** The span of an assistant turn: from where the preceding turn ends
    (after the generation prompt when that turn is not an assistant turn)
    to where the next turn starts, or to the end of the sequence for the
    last turn. *)
Definition assistant_start (idx : nat) : nat :=
  match idx with
  | O => 0%nat
  | S j =>
      match messages !! j with
      | Some m => if is_assistant m then plen idx false else end_of j
      | None => plen idx false
      end
  end.

Definition assistant_end (idx : nat) : nat :=
  if decide (S idx = n) then length (rendered tokenizer messages)
  else plen (S idx) false.

End spans.

(** ** The render contract

  The tokenizer is assumed prefix-consistent: the rendering of the turns
  [0..k) is a prefix of the rendering of the turns [0..k], the generation
  prompt is appended at the end of a rendering, and the generation prompt
  that follows the turns [0..k) is how the rendering of an assistant turn
  [k] opens. *)

Definition prefix_consistent (tokenizer : Tokenizer) (messages : list Turn) : Prop :=
  (∀ k, (k < length messages)%nat →
        apply_chat_template tokenizer (take k messages) false
        `prefix_of` apply_chat_template tokenizer (take (S k) messages) false)
  ∧ (∀ k, (k ≤ length messages)%nat →
          apply_chat_template tokenizer (take k messages) false
          `prefix_of` apply_chat_template tokenizer (take k messages) true)
  ∧ (∀ k m, messages !! k = Some m → is_assistant m = true →
            apply_chat_template tokenizer (take k messages) true
            `prefix_of` apply_chat_template tokenizer (take (S k) messages) false).

(** ** Definitions used in the statements about the trainer *)

(** The events that matter for the epoch loop: a pass over a data loader
    starts (the sampler's epoch is set), a snapshot is written. *)
Inductive milestone :=
| TrainPass (epoch : Z)
| Saved (epoch : Z)
| EvalPass (epoch : Z).

Definition train_passes (ms : list milestone) : list Z :=
  omap (λ m, match m with TrainPass e => Some e | _ => None end) ms.

Definition saved_epochs (ms : list milestone) : list Z :=
  omap (λ m, match m with Saved e => Some e | _ => None end) ms.

Section trainer_aux.
Context `{TorchOps}.

Definition milestone_of (e : event) : option milestone :=
  match e with
  | Torch (SetEpoch TrainLoader epoch) => Some (TrainPass epoch)
  | Torch (SetEpoch TestLoader epoch) => Some (EvalPass epoch)
  | TorchSave _ s => Some (Saved (finished_epoch s))
  | _ => None
  end.

Definition milestones (tr : list event) : list milestone := omap milestone_of tr.

(** The events a computation appended to the trace. *)
Definition new_events (st st' : state) : list event :=
  drop (length (trace st)) (trace st').

(** Whether the loop writes a snapshot after epoch [e]. *)
Definition saves (t : Trainer) (e : Z) : bool :=
  (local_rank t =? 0) && negb (self_save_every t =? 0)
  && (e `mod` self_save_every t =? 0).

(** The milestones of one iteration of the epoch loop. *)
Definition epoch_plan (t : Trainer) (e : Z) : list milestone :=
  TrainPass e
  :: (if saves t e then [Saved e] else [])
  ++ (if negb (dl_len (test_dataloader t) =? 0) then [EvalPass e] else []).

Definition plan (t : Trainer) (es : list Z) : list milestone :=
  concat (epoch_plan t <$> ((λ e, e + 1) <$> es)).

(** The last epoch of [es] (as the loop numbers them) after which a snapshot
    is written. *)
Fixpoint last_saved (t : Trainer) (es : list Z) : option Z :=
  match es with
  | [] => None
  | e :: es' =>
      match last_saved t es' with
      | Some x => Some x
      | None => if saves t (e + 1) then Some (e + 1) else None
      end
  end.

Definition holds_snapshot (fs : gmap string File) (p : string) (e : Z) : Prop :=
  ∃ s, fs !! p = Some (FileSnapshot s) ∧ finished_epoch s = e.

(** Whether [dist.gather] accepts the call the evaluation pass makes: the
    gather list goes with local rank 0, the destination is global rank 0. *)
Definition gather_ok (t : Trainer) : bool :=
  Bool.eqb (local_rank t =? 0) (global_rank t =? 0).

Definition pass (which : Loader) (epoch : Z) : milestone :=
  match which with
  | TrainLoader => TrainPass epoch
  | TestLoader => EvalPass epoch
  end.

(** The configuration [__init__] leaves on the trainer. *)
Definition started_config (cfg : TrainerConfig) : TrainerConfig :=
  mkConfig (max_epochs cfg) (batch_size cfg) (data_loader_workers cfg)
    (grad_norm_clip cfg) (Some (default "snapshot.pt" (snapshot_path cfg)))
    (save_every cfg) (use_amp cfg).

(** The trainer [__init__] returns when it starts at epoch [e]. *)
Definition started (cfg : TrainerConfig) (LR WS R : Z) (tl el : DataLoader)
    (e : Z) : Trainer :=
  mkTrainer (started_config cfg) LR WS R tl el e (save_every cfg) (use_amp cfg).

Definition placed (LR : Z) (w : World) : World :=
  exec (WrapDDP LR) (exec (ModelToDevice LR) w).

Definition with_scaler (cfg : TrainerConfig) (w : World) : World :=
  if use_amp cfg then exec NewGradScaler w else w.

Definition scaler_events (cfg : TrainerConfig) : list event :=
  if use_amp cfg then [Torch NewGradScaler] else [].

(** The order of one training step as the specification words it: zero
    gradients, forward loss, backward (scaled under mixed precision), clip,
    optimizer step (and scaler). *)
Definition spec_training_step (cfg : TrainerConfig) (batch : Batch) (loss : Loss)
    : list call :=
  ZeroGrad :: Forward batch true (use_amp cfg)
  :: (if use_amp cfg
      then [ScaledBackward loss; ClipGradNorm (grad_norm_clip cfg);
            ScalerStep; ScalerUpdate]
      else [Backward loss; ClipGradNorm (grad_norm_clip cfg); OptimizerStep]).

End trainer_aux.

(** ** A small chat template, used to run the definitions

    A user or system turn renders to three tokens, an assistant turn to the
    two tokens of the generation prompt followed by two more, and the
    generation prompt is appended on request. *)
Module Toy.

Definition BOS_USER : Z := 11.
Definition EOT : Z := 12.
Definition GEN1 : Z := 21.
Definition GEN2 : Z := 22.

Definition content_token (m : Turn) : Z := 100 + Z.of_nat (String.length (content m)).

Definition turn_tokens (m : Turn) : list Z :=
  if is_assistant m then [GEN1; GEN2; content_token m; EOT]
  else [BOS_USER; content_token m; EOT].

Definition render (msgs : list Turn) (add_generation_prompt : bool) : list Z :=
  concat (turn_tokens <$> msgs) ++ (if add_generation_prompt then [GEN1; GEN2] else []).

Definition tokenizer : Tokenizer := {| apply_chat_template := render |}.

Definition conversation : list Turn :=
  [mkTurn "user" "2+2?"; mkTurn "assistant" "4"].

(** A template that renders every prefix to a single token but the whole
    conversation to nothing: it breaks the render contract. *)
Definition shrinking : Tokenizer :=
  {| apply_chat_template := λ msgs g, if g then [] else [7] |}.

End Toy.

(** *** A torch side small enough to run: the model and the optimizer are
    two counters, a batch and a loss are integers. *)
Module ToyTorch.

#[export] Instance types : TorchTypes :=
  {| World := Z * Z; MS := Z; OS := Z; Batch := Z; Loss := Z; Float := Z |}.

Definition toy_exec (c : call) (w : Z * Z) : Z * Z :=
  match c with
  | LoadModelState s => (s, w.2)
  | LoadOptimizerState s => (w.1, s)
  | OptimizerStep | ScalerStep => (w.1 + 1, w.2 + 1)
  | _ => w
  end.

#[export] Instance ops : TorchOps :=
  {| exec := toy_exec;
     state_dict := fst;
     optimizer_state_dict := snd;
     model_accepts := λ _ _, true;
     optimizer_accepts := λ _ _, true;
     forward_loss := λ w b, w.1 + b;
     gathered := λ _ l, [l];
     zeros_like := λ _, 0 |}.

Definition train_loader : DataLoader := mkLoader 2 (λ epoch, [epoch; epoch + 1]).
Definition test_loader : DataLoader := mkLoader 0 (λ _, []).
Definition eval_loader : DataLoader := mkLoader 2 (λ epoch, [epoch + 10; epoch + 20]).

Definition cfg (max_epochs save_every : Z) : TrainerConfig :=
  mkConfig max_epochs 2 0 1 None save_every false.

Definition snapshot (model optimizer epoch : Z) : Snapshot :=
  @mkSnapshot types model optimizer epoch.

(** One process: build the trainer, then train. *)
Definition process (max_epochs save_every LOCAL_RANK WORLD_SIZE RANK : Z)
    (fs : gmap string File) : state * result unit :=
  match __init__ (cfg max_epochs save_every) LOCAL_RANK WORLD_SIZE RANK
          train_loader test_loader (0, 0) fs with
  | (st, Ok _) => train st
  | r => r
  end.

End ToyTorch.

(** ** The template-style dataset of prepare_data.py *)

(** What [load_dataset] returns: a table with named columns.  Every record
    has every column of the table; a field that is missing in the data is
    [None]. *)
Record Table := mkTable {
  column_names : list string;
  rows : list (string → option string) }.

(** A field as [str.format] renders it: the text itself, or "None". *)
Definition py_str (field : option string) : string := default "None" field.

(** The dictionary a mapped function receives for a row: one key per column
    of the table.  The formatter uses a field in no other way than as an
    argument of [format], so the field is given as the text [format] makes
    of it. *)
Definition record_of (table : Table) (row : string → option string)
    : gmap string string :=
  list_to_map ((λ c, (c, py_str (row c))) <$> column_names table).

(** [SFTDataset(config, tokenizer)]: [table] is what [load_dataset] returns
    for the configured path.  The subscript [config["num_proc"]] is
    evaluated before the first [map] runs and raises [KeyError] when the key
    is missing; [Dataset.map] raises [ValueError] unless [num_proc] is
    positive.  It then calls the function on the records one by one, in
    order, and an exception of the function ends the construction.  The
    first [map] formats every record, the second tokenizes every formatted
    record; the dataset keeps what the mapped function returns by value, so
    an item is the three sequences. *)
Definition SFTDataset (config : gmap string Z) (tokenizer : Tokenizer)
    (table : Table) : option (list TokenizedExample) :=
  num_proc ← config !! "num_proc";
  if num_proc <=? 0 then None else
  formatted ← mapM (λ row, apply_input_output_template (record_of table row))
                   (rows table);
  Some ((λ ex, let r := preprocess_chat_dataset tokenizer (conversation ex)
                          config ∅ in
               view r.2 r.1) <$> formatted).

(** [SFTDataset.__len__] *)
Definition __len__ (dataset : list TokenizedExample) : Z :=
  Z.of_nat (length dataset).

(** A table of two records with the three columns and one more; the second
    record has no question. *)
Definition toy_table : Table :=
  mkTable ["Question"; "Complex_CoT"; "Response"; "Source"]
    [ (λ c, if String.eqb c "Question" then Some "2+2?"
            else if String.eqb c "Complex_CoT" then Some "two and two"
            else if String.eqb c "Response" then Some "4"
            else None);
      (λ c, if String.eqb c "Complex_CoT" then Some "no idea"
            else if String.eqb c "Response" then Some "?"
            else None) ].

(** ** Definitions used in the further statements about the trainer *)

Section trainer_steps.
Context `{TorchOps}.

(** The torch calls of one [_run_batch], given the loss of its forward
    pass. *)
Definition batch_calls (cfg : TrainerConfig) (batch : Batch) (tr : bool)
    (loss : Loss) : list call :=
  Forward batch tr (use_amp cfg)
  :: (if tr then
        ZeroGrad
        :: (if use_amp cfg
            then [ScaledBackward loss; ClipGradNorm (grad_norm_clip cfg);
                  ScalerStep; ScalerUpdate]
            else [Backward loss; ClipGradNorm (grad_norm_clip cfg);
                  OptimizerStep])
      else []).

(** Whether iteration [x] of the loop of [_run_epoch] raises: it does in an
    evaluation pass, at an iteration that gathers, when [dist.gather]
    rejects the call. *)
Definition iteration_raises (t : Trainer) (tr : bool) (x : Z * Batch) : bool :=
  (x.1 `mod` 100 =? 0) && negb tr && negb (gather_ok t).

(** The events of one iteration of the loop of [_run_epoch], started with
    the torch side [w]; an iteration that raises has made the calls of its
    batch and nothing more. *)
Definition iteration_events (t : Trainer) (tr : bool) (epoch : Z) (w : World)
    (x : Z * Batch) : list event :=
  let loss := forward_loss w x.2 in
  let calls := batch_calls (config t) x.2 tr loss in
  let w' := foldl (λ w c, exec c w) w calls in
  (Torch <$> calls)
  ++ (if x.1 `mod` 100 =? 0 then
        if tr then [Print (TrainLoss (global_rank t) epoch x.1 loss)]
        else if gather_ok t then
          Torch (Gather loss (local_rank t =? 0))
          :: (if local_rank t =? 0
              then (λ il : Z * Loss, Print (EvalLoss il.1 epoch x.1 il.2))
                   <$> enumerate (gathered w' loss)
              else [])
        else []
      else []).

(** The torch side after one iteration. *)
Definition iteration_world (t : Trainer) (tr : bool) (w : World)
    (x : Z * Batch) : World :=
  let loss := forward_loss w x.2 in
  let w' := foldl (λ w c, exec c w) w (batch_calls (config t) x.2 tr loss) in
  if (x.1 `mod` 100 =? 0) && negb tr && gather_ok t
  then exec (Gather loss (local_rank t =? 0)) w' else w'.

(** The events of the whole loop of [_run_epoch] over the enumerated
    batches [xs], the torch side it leaves and how it ends: the loop stops
    at the first iteration that raises. *)
Fixpoint pass_events (t : Trainer) (tr : bool) (epoch : Z) (w : World)
    (xs : list (Z * Batch)) : list event :=
  match xs with
  | [] => []
  | x :: xs' =>
      iteration_events t tr epoch w x
      ++ (if iteration_raises t tr x then []
          else pass_events t tr epoch (iteration_world t tr w x) xs')
  end.

Fixpoint pass_world (t : Trainer) (tr : bool) (w : World)
    (xs : list (Z * Batch)) : World :=
  match xs with
  | [] => w
  | x :: xs' =>
      if iteration_raises t tr x then iteration_world t tr w x
      else pass_world t tr (iteration_world t tr w x) xs'
  end.

Fixpoint pass_result (t : Trainer) (tr : bool) (xs : list (Z * Batch))
    : result unit :=
  match xs with
  | [] => Ok tt
  | x :: xs' =>
      if iteration_raises t tr x then Raise ValueError
      else pass_result t tr xs'
  end.

(** How the evaluation stage of epoch [epoch] ends: it is skipped when the
    test loader has length 0. *)
Definition eval_result (t : Trainer) (epoch : Z) : result unit :=
  if negb (dl_len (test_dataloader t) =? 0)
  then pass_result t false (enumerate (dl_batches (test_dataloader t) epoch))
  else Ok tt.

(** The gradient and optimizer operations, without the values they carry. *)
Inductive op :=
| OpForward (batch : Batch) (grad_enabled : bool)
| OpZeroGrad
| OpBackward (scaled : bool)
| OpClip
| OpOptimizerStep
| OpScalerStep
| OpScalerUpdate.

Definition op_of (e : event) : option op :=
  match e with
  | Torch (Forward b g _) => Some (OpForward b g)
  | Torch ZeroGrad => Some OpZeroGrad
  | Torch (Backward _) => Some (OpBackward false)
  | Torch (ScaledBackward _) => Some (OpBackward true)
  | Torch (ClipGradNorm _) => Some OpClip
  | Torch OptimizerStep => Some OpOptimizerStep
  | Torch ScalerStep => Some OpScalerStep
  | Torch ScalerUpdate => Some OpScalerUpdate
  | _ => None
  end.

Definition ops (tr : list event) : list op := omap op_of tr.





End trainer_steps.

(** *** A torch side whose [load_state_dict] rejects negative states. *)
Module PickyTorch.

Definition ops : TorchOps (H := ToyTorch.types) :=
  {| exec := ToyTorch.toy_exec;
     state_dict := fst;
     optimizer_state_dict := snd;
     model_accepts := λ _ s, 0 <=? s;
     optimizer_accepts := λ _ s, 0 <=? s;
     forward_loss := λ w b, w.1 + b;
     gathered := λ _ l, [l];
     zeros_like := λ _, 0 |}.

End PickyTorch.

(** *** A torch side with named parameters.

    The model is a list of named tensors (integers here).  The state
    dictionary of a module has the module's own keys; the DDP wrapper nests
    the module under the attribute [module], so the keys of the wrapper's
    state dictionary are those of the module behind the prefix "module.".
    [load_state_dict] is called with the default [strict=True]: it raises
    unless the keys it is given are exactly its own. *)
Module DDPTorch.

Record world := mkWorld {
  parameters : list (string * Z);
  optimizer : Z;
  wrapped : bool }.

#[export] Instance types : TorchTypes :=
  {| World := world; MS := list (string * Z); OS := Z; Batch := Z; Loss := Z;
     Float := Z |}.

(** The key under which [self.model] knows the parameter [k] of the module. *)
Definition own_key (w : world) (k : string) : string :=
  if wrapped w then "module." +:+ k else k.

Definition own_keys (w : world) : list string := own_key w <$> (parameters w).*1.

Definition missing_keys (w : world) (sd : list (string * Z)) : list string :=
  filter (λ k, k ∉ sd.*1) (own_keys w).

Definition unexpected_keys (w : world) (sd : list (string * Z)) : list string :=
  filter (λ k, k ∉ own_keys w) (sd.*1).

Definition load_accepts (w : world) (sd : list (string * Z)) : bool :=
  bool_decide (missing_keys w sd = [] ∧ unexpected_keys w sd = []).

Fixpoint assoc (k : string) (sd : list (string * Z)) : option Z :=
  match sd with
  | [] => None
  | (k', v) :: sd' => if decide (k' = k) then Some v else assoc k sd'
  end.

Definition loaded (w : world) (sd : list (string * Z)) : list (string * Z) :=
  (λ kv, (kv.1, default kv.2 (assoc (own_key w kv.1) sd))) <$> parameters w.

Definition ddp_exec (c : call) (w : world) : world :=
  match c with
  | WrapDDP _ => mkWorld (parameters w) (optimizer w) true
  | LoadModelState sd => mkWorld (loaded w sd) (optimizer w) (wrapped w)
  | LoadOptimizerState s => mkWorld (parameters w) s (wrapped w)
  | OptimizerStep | ScalerStep =>
      mkWorld ((λ kv, (kv.1, kv.2 + 1)) <$> parameters w) (optimizer w + 1)
        (wrapped w)
  | _ => w
  end.

(** [state_dict] is what [_save_snapshot] reads: the state dictionary of
    [model.module], the module inside the wrapper. *)
#[export] Instance ops : TorchOps :=
  {| exec := ddp_exec;
     state_dict := parameters;
     optimizer_state_dict := optimizer;
     model_accepts := load_accepts;
     optimizer_accepts := λ _ _, true;
     forward_loss := λ _ b, b;
     gathered := λ _ l, [l];
     zeros_like := λ _, 0 |}.

Definition train_loader : DataLoader := mkLoader 1 (λ epoch, [epoch]).
Definition test_loader : DataLoader := mkLoader 0 (λ _, []).

Definition cfg (max_epochs save_every : Z) : TrainerConfig :=
  mkConfig max_epochs 2 0 1 None save_every false.

(** A model with one parameter, as the caller passes it: a plain module,
    not wrapped yet. *)
Definition model : world := mkWorld [("weight", 5)] 0 false.

Definition snapshot (model : list (string * Z)) (optimizer epoch : Z) : Snapshot :=
  @mkSnapshot types model optimizer epoch.

(** One process: build the trainer, then train. *)
Definition process (max_epochs save_every : Z) (fs : gmap string File)
    : state * result unit :=
  match __init__ (cfg max_epochs save_every) 0 1 0 train_loader test_loader
          model fs with
  | (st, Ok _) => train st
  | r => r
  end.

End DDPTorch.

(** A freshly built trainer of the small torch side, with no snapshot on
    disk, in a world of two workers. *)
Definition toy_started (max_epochs save_every LOCAL_RANK : Z)
    : @state ToyTorch.types :=
  (@__init__ ToyTorch.types ToyTorch.ops (ToyTorch.cfg max_epochs save_every)
     LOCAL_RANK 2 LOCAL_RANK ToyTorch.train_loader ToyTorch.test_loader
     (0, 0) ∅).1.


(** * Proofs *)

(** ** Facts about the Python list operations *)

Section py_facts.
Context {A : Type}.
Implicit Types (l vals : list A) (x : A).

Lemma slice_to_take n l : 0 ≤ n → Py.slice_to n l = take (Z.to_nat n) l.
Proof. intros Hn. unfold Py.slice_to. destruct (Z.ltb_spec n 0); [lia | done]. Qed.

Lemma slice_to_prefix n l : Py.slice_to n l `prefix_of` l.
Proof. unfold Py.slice_to. destruct (n <? 0); apply prefix_take. Qed.

Lemma slice_to_length_eq {B} n l (k : list B) :
  length l = length k → length (Py.slice_to n l) = length (Py.slice_to n k).
Proof.
  intros E. unfold Py.slice_to. rewrite E.
  destruct (n <? 0); rewrite !length_take; lia.
Qed.

Lemma slice_to_lookup n l (i : nat) :
  (i < length (Py.slice_to n l))%nat → Py.slice_to n l !! i = l !! i.
Proof.
  unfold Py.slice_to. destruct (n <? 0); rewrite length_take; intros Hi;
    apply lookup_take_lt; lia.
Qed.

Lemma length_repeat_list x k : length (Py.repeat_list x k) = Z.to_nat k.
Proof. apply length_replicate. Qed.

(** A slice assignment of [e - s] copies of [x] into a list that reaches
    at least up to [e] keeps the length and changes exactly the positions
    [s <= i < e]. *)
Lemma slice_assign_length l (s e : nat) x :
  (e ≤ length l)%nat →
  length (Py.slice_assign l s e (Py.repeat_list x (Z.of_nat e - Z.of_nat s)))
  = length l.
Proof.
  intros He. unfold Py.slice_assign.
  rewrite !length_app, length_take, length_drop, length_repeat_list. lia.
Qed.

Lemma slice_assign_lookup l (s e : nat) x (i : nat) :
  (e ≤ length l)%nat →
  Py.slice_assign l s e (Py.repeat_list x (Z.of_nat e - Z.of_nat s)) !! i
  = if bool_decide (s ≤ i < e)%nat then Some x else l !! i.
Proof.
  intros He. unfold Py.slice_assign, Py.repeat_list.
  case_bool_decide as Hi.
  - rewrite lookup_app_r by (rewrite length_take; lia).
    rewrite length_take, lookup_app_l by (rewrite length_replicate; lia).
    apply lookup_replicate_2. lia.
  - destruct (decide (i < s `min` length l)%nat) as [Hlt|Hge].
    + rewrite lookup_app_l by (rewrite length_take; lia).
      apply lookup_take_lt. lia.
    + rewrite lookup_app_r by (rewrite length_take; lia).
      rewrite length_take.
      rewrite lookup_app_r by (rewrite length_replicate; lia).
      rewrite length_replicate, lookup_drop.
      destruct (decide (s ≤ e)%nat).
      * f_equal. lia.
      * destruct (decide (i < length l)%nat).
        -- f_equal. lia.
        -- rewrite !lookup_ge_None_2; [done | lia | lia].
Qed.

Lemma range_length a b : length (Py.range a b) = Z.to_nat (b - a).
Proof. unfold Py.range. by rewrite length_fmap, length_seq. Qed.

End py_facts.

(** ** The store: allocation and frames *)

Lemma alloc_fresh v h : h !! (alloc v h).1 = None.
Proof. apply not_elem_of_dom, is_fresh. Qed.

Lemma alloc_heap v h : (alloc v h).2 = <[(alloc v h).1 := v]> h.
Proof. done. Qed.

Lemma deref_insert_eq h l v : deref (<[l := v]> h) l = v.
Proof. unfold deref. by rewrite lookup_insert_eq. Qed.

Lemma deref_insert_ne h l l' v : l ≠ l' → deref (<[l := v]> h) l' = deref h l'.
Proof. intros. unfold deref. by rewrite lookup_insert_ne. Qed.

(** ** The labels computed by the masking loop, as a value *)

Section masking.
Variable tokenizer : Tokenizer.
Variable messages : list Turn.

Local Abbreviation start_of := (message_start_idx tokenizer messages).
Local Abbreviation end_of := (message_end_idx tokenizer messages).

(** The loop writes the object bound to ["labels"] and nothing else. *)
Lemma mask_loop_spec data rest : ∀ idx (h : heap),
  is_Some (h !! labels data) →
  mask_loop tokenizer messages data idx rest h
  = <[labels data := mask_labels tokenizer messages idx rest (deref h (labels data))]> h.
Proof.
  induction rest as [|m rest IH]; intros idx h [v Hv]; simpl.
  - symmetry. apply insert_id. unfold deref. by rewrite Hv.
  - unfold mask_turn, mask_step. destruct (negb (is_assistant m)).
    + rewrite IH by (rewrite lookup_insert_eq; eauto).
      by rewrite deref_insert_eq, insert_insert_eq.
    + apply IH. eauto.
Qed.

Lemma masked_by_spec rest : ∀ idx i,
  masked_by tokenizer messages idx rest i = true ↔
  ∃ k m, rest !! k = Some m ∧ is_assistant m = false
         ∧ (start_of (idx + k) ≤ i < end_of (idx + k))%nat.
Proof.
  induction rest as [|m rest IH]; intros idx i; simpl.
  - split; [done | by intros (k & m & ? & _)].
  - rewrite orb_true_iff, andb_true_iff, negb_true_iff, bool_decide_eq_true, IH.
    split.
    + intros [[Hm Hi] | (k & m' & Hk & Hm & Hi)].
      * exists 0%nat, m. by rewrite Nat.add_0_r.
      * exists (S k), m'. by rewrite Nat.add_succ_r.
    + intros ([|k] & m' & Hk & Hm & Hi); simpl in Hk.
      * left. rewrite Nat.add_0_r in Hi. by simplify_eq.
      * right. exists k, m'. by rewrite Nat.add_succ_r in Hi.
Qed.

(** When no masked span ends beyond the list, the loop keeps the length and
    writes IGNORE exactly on the masked spans. *)
Lemma mask_labels_bounded rest : ∀ idx lab,
  (∀ k m, rest !! k = Some m → is_assistant m = false →
          (end_of (idx + k) ≤ length lab)%nat) →
  length (mask_labels tokenizer messages idx rest lab) = length lab
  ∧ ∀ i, mask_labels tokenizer messages idx rest lab !! i
         = if masked_by tokenizer messages idx rest i && bool_decide (i < length lab)%nat
           then Some INGORE_INDEX else lab !! i.
Proof.
  induction rest as [|m rest IH]; intros idx lab Hb; simpl.
  - done.
  - assert (Hlen : length (mask_step tokenizer messages idx m lab) = length lab).
    { unfold mask_step. destruct (is_assistant m) eqn:Hm; simpl; [done|].
      apply slice_assign_length. specialize (Hb 0%nat m).
      rewrite Nat.add_0_r in Hb. by apply Hb. }
    destruct (IH (S idx) (mask_step tokenizer messages idx m lab)) as [IHl IHi].
    { intros k m' Hk Hm'. rewrite Hlen.
      specialize (Hb (S k) m'). rewrite Nat.add_succ_r in Hb. by apply Hb. }
    split; [congruence|]. intros i. rewrite IHi, Hlen.
    unfold mask_step. destruct (is_assistant m) eqn:Hm; simpl; [done|].
    rewrite slice_assign_lookup
      by (specialize (Hb 0%nat m); rewrite Nat.add_0_r in Hb; by apply Hb).
    assert (He : (end_of idx ≤ length lab)%nat)
      by (specialize (Hb 0%nat m); rewrite Nat.add_0_r in Hb; by apply Hb).
    destruct (masked_by tokenizer messages (S idx) rest i); simpl.
    + rewrite orb_true_r. simpl.
      repeat case_bool_decide; try done; lia.
    + rewrite orb_false_r.
      repeat case_bool_decide; simpl; try done; lia.
Qed.

End masking.

(** ** What [preprocess_chat_dataset] returns, as a value *)

Lemma truncate_frame n data (h : heap) x :
  is_Some (h !! x) → (truncate n data h).2 !! x = h !! x.
Proof.
  intros [v Hv]. unfold truncate, alloc. cbn [fst snd input_ids labels attention_mask].
  set (i' := fresh (dom h)).
  set (h5 := <[i' := _]> h).
  set (l' := fresh (dom h5)).
  set (h6 := <[l' := _]> h5).
  set (a' := fresh (dom h6)).
  assert (Hi' : h !! i' = None) by apply not_elem_of_dom, is_fresh.
  assert (Hl' : h5 !! l' = None) by apply not_elem_of_dom, is_fresh.
  assert (Ha' : h6 !! a' = None) by apply not_elem_of_dom, is_fresh.
  assert (i' ≠ x) by congruence.
  assert (H5 : h5 !! x = h !! x) by (unfold h5; by rewrite lookup_insert_ne).
  assert (l' ≠ x) by congruence.
  assert (H6 : h6 !! x = h !! x) by (unfold h6; by rewrite lookup_insert_ne).
  assert (a' ≠ x) by congruence.
  by rewrite lookup_insert_ne.
Qed.

Lemma truncate_view n data (h : heap) :
  is_Some (h !! input_ids data) → is_Some (h !! labels data) →
  is_Some (h !! attention_mask data) →
  view (truncate n data h).2 (truncate n data h).1 = truncated n (view h data).
Proof.
  intros [vi Hi] [vl Hl] [va Ha].
  unfold truncate, alloc. cbn [fst snd input_ids labels attention_mask].
  set (i' := fresh (dom h)).
  set (h5 := <[i' := _]> h).
  set (l' := fresh (dom h5)).
  set (h6 := <[l' := _]> h5).
  set (a' := fresh (dom h6)).
  assert (Hi' : h !! i' = None) by apply not_elem_of_dom, is_fresh.
  assert (Hl' : h5 !! l' = None) by apply not_elem_of_dom, is_fresh.
  assert (Ha' : h6 !! a' = None) by apply not_elem_of_dom, is_fresh.
  assert (i' ≠ labels data) by congruence.
  assert (i' ≠ attention_mask data) by congruence.
  assert (i' ≠ l').
  { intros E. rewrite <- E in Hl'. unfold h5 in Hl'.
    by rewrite lookup_insert_eq in Hl'. }
  assert (l' ≠ attention_mask data).
  { intros E. rewrite E in Hl'. unfold h5 in Hl'.
    rewrite lookup_insert_ne in Hl' by done. congruence. }
  assert (l' ≠ a').
  { intros E. rewrite <- E in Ha'. unfold h6 in Ha'.
    by rewrite lookup_insert_eq in Ha'. }
  assert (i' ≠ a').
  { intros E. rewrite <- E in Ha'. unfold h6, h5 in Ha'.
    by rewrite lookup_insert_ne, lookup_insert_eq in Ha'. }
  unfold view, truncated. cbn [input_ids labels attention_mask
                               ex_input_ids ex_labels ex_attention_mask].
  f_equal.
  - rewrite deref_insert_ne by congruence. unfold h6.
    rewrite deref_insert_ne by congruence. unfold h5. apply deref_insert_eq.
  - rewrite deref_insert_ne by congruence. unfold h6.
    rewrite deref_insert_eq. unfold h5. by rewrite deref_insert_ne.
  - rewrite deref_insert_eq. unfold h6, h5. by rewrite !deref_insert_ne.
Qed.

Section summary.
Variable tokenizer : Tokenizer.
Variable messages : list Turn.

Lemma masked_data_fresh (h : heap) :
  let d := masked_data tokenizer messages h in
  input_ids d ≠ labels d ∧ input_ids d ≠ attention_mask d
  ∧ labels d ≠ attention_mask d
  ∧ h !! input_ids d = None ∧ h !! labels d = None
  ∧ h !! attention_mask d = None.
Proof.
  unfold masked_data, alloc. cbn [input_ids labels attention_mask].
  set (i := fresh (dom h)).
  set (h1 := <[i := (rendered tokenizer messages)]> h).
  set (l := fresh (dom h1)).
  set (h2 := <[l := (rendered tokenizer messages)]> h1).
  set (a := fresh (dom h2)).
  assert (Hi : h !! i = None) by apply not_elem_of_dom, is_fresh.
  assert (Hl : h1 !! l = None) by apply not_elem_of_dom, is_fresh.
  assert (Ha : h2 !! a = None) by apply not_elem_of_dom, is_fresh.
  assert (Hil : i ≠ l).
  { intros E. rewrite <- E in Hl. unfold h1 in Hl.
    by rewrite lookup_insert_eq in Hl. }
  assert (Hla : l ≠ a).
  { intros E. rewrite <- E in Ha. unfold h2 in Ha.
    by rewrite lookup_insert_eq in Ha. }
  assert (Hia : i ≠ a).
  { intros E. rewrite <- E in Ha. unfold h2, h1 in Ha.
    by rewrite lookup_insert_ne, lookup_insert_eq in Ha. }
  repeat split; try done.
  - unfold h1 in Hl. by rewrite lookup_insert_ne in Hl.
  - unfold h2, h1 in Ha. by rewrite !lookup_insert_ne in Ha.
Qed.

Lemma preprocess_unfold config (h : heap) :
  preprocess_chat_dataset tokenizer messages config h
  = match config !! "max_length" with
    | Some n => truncate n (masked_data tokenizer messages h) (masked_heap tokenizer messages h)
    | None => (masked_data tokenizer messages h, masked_heap tokenizer messages h)
    end.
Proof.
  pose proof (masked_data_fresh h) as Hf.
  unfold preprocess_chat_dataset, masked_heap, masked_data, alloc in *.
  cbn [input_ids labels attention_mask] in *. fold (rendered tokenizer messages).
  destruct Hf as (Hil & Hia & Hla & Hi & Hl & Ha).
  set (i := fresh (dom h)) in *.
  set (h1 := <[i := (rendered tokenizer messages)]> h) in *.
  assert (D1 : deref h1 i = (rendered tokenizer messages)) by apply deref_insert_eq.
  rewrite !D1.
  set (l := fresh (dom h1)) in *.
  set (h2 := <[l := (rendered tokenizer messages)]> h1) in *.
  assert (D2 : deref h2 i = (rendered tokenizer messages)).
  { unfold h2. by rewrite deref_insert_ne. }
  rewrite ?D2.
  set (ones := Py.repeat_list 1 (Z.of_nat (length (rendered tokenizer messages)))) in *.
  set (a := fresh (dom h2)) in *.
  rewrite mask_loop_spec; cbn [labels].
  2:{ rewrite lookup_insert_ne by done. unfold h2.
      rewrite lookup_insert_eq. eauto. }
  assert (D3 : deref (<[a := ones]> h2) l = (rendered tokenizer messages)).
  { rewrite deref_insert_ne by done. apply deref_insert_eq. }
  rewrite D3.
  replace (<[l := mask_labels tokenizer messages 0 messages (rendered tokenizer messages)]>
             (<[a := ones]> h2))
    with (<[l := ex_labels (masked tokenizer messages)]>
            (<[a := ex_attention_mask (masked tokenizer messages)]> h1)); [done|].
  unfold h2. cbn [masked ex_labels ex_attention_mask]. fold ones.
  rewrite (insert_insert_ne _ a l) by done.
  by rewrite insert_insert_eq.
Qed.

Lemma masked_view (h : heap) : view (masked_heap tokenizer messages h) (masked_data tokenizer messages h) = masked tokenizer messages.
Proof.
  destruct (masked_data_fresh h) as (Hil & Hia & Hla & _).
  unfold view, masked_heap.
  rewrite deref_insert_eq.
  rewrite !(deref_insert_ne _ (labels _)) by congruence.
  rewrite deref_insert_eq.
  rewrite (deref_insert_ne _ (attention_mask _)) by congruence.
  by rewrite deref_insert_eq.
Qed.

(** The returned dictionary denotes [tokenized tokenizer messages config], whatever the store
    the call starts from. *)
Lemma preprocess_view config (h : heap) :
  let r := preprocess_chat_dataset tokenizer messages config h in
  view r.2 r.1 = tokenized tokenizer messages config.
Proof.
  cbv zeta. rewrite preprocess_unfold. unfold tokenized.
  destruct (masked_data_fresh h) as (Hil & Hia & Hla & _).
  destruct (config !! "max_length") as [n|]; cbn [fst snd].
  - rewrite truncate_view.
    + by rewrite masked_view.
    + unfold masked_heap. rewrite !lookup_insert_ne by congruence.
      rewrite lookup_insert_eq. eauto.
    + unfold masked_heap. rewrite lookup_insert_eq. eauto.
    + unfold masked_heap. rewrite lookup_insert_ne by congruence.
      rewrite lookup_insert_eq. eauto.
  - apply masked_view.
Qed.

(** Objects that existed before the call are left alone. *)
Lemma preprocess_frame config (h : heap) x :
  is_Some (h !! x) →
  (preprocess_chat_dataset tokenizer messages config h).2 !! x = h !! x.
Proof.
  intros Hx. rewrite preprocess_unfold.
  destruct (masked_data_fresh h) as (_ & _ & _ & Hi & Hl & Ha).
  assert (Hm : masked_heap tokenizer messages h !! x = h !! x).
  { destruct Hx as [v Hv]. unfold masked_heap.
    rewrite !lookup_insert_ne by congruence. done. }
  destruct (config !! "max_length") as [n|]; cbn [snd]; [|done].
  rewrite truncate_frame; [done|]. rewrite Hm. done.
Qed.

End summary.

Section contract.
Variable tokenizer : Tokenizer.
Variable messages : list Turn.
Hypothesis contract : prefix_consistent tokenizer messages.

Local Abbreviation start_of := (message_start_idx tokenizer messages).
Local Abbreviation end_of := (message_end_idx tokenizer messages).
Local Abbreviation n := (length messages).

Lemma plen_step k : (k < n)%nat → (plen tokenizer messages k false ≤ plen tokenizer messages (S k) false)%nat.
Proof. intros Hk. apply prefix_length, contract, Hk. Qed.

Lemma plen_prompt k : (k ≤ n)%nat → (plen tokenizer messages k false ≤ plen tokenizer messages k true)%nat.
Proof. intros Hk. apply prefix_length, contract, Hk. Qed.

Lemma plen_assistant k m :
  messages !! k = Some m → is_assistant m = true →
  (plen tokenizer messages k true ≤ plen tokenizer messages (S k) false)%nat.
Proof.
  intros Hk Hm. apply prefix_length.
  destruct contract as (_ & _ & H3). by apply (H3 k m).
Qed.

Lemma plen_mono j k : (j ≤ k)%nat → (k ≤ n)%nat → (plen tokenizer messages j false ≤ plen tokenizer messages k false)%nat.
Proof.
  induction 1 as [|k Hjk IH]; intros Hk; [done|].
  etrans; [apply IH; lia|]. apply plen_step. lia.
Qed.

Lemma plen_full g : plen tokenizer messages n g = length (apply_chat_template tokenizer messages g).
Proof. unfold plen. by rewrite firstn_all. Qed.

Lemma next_is_assistant_spec idx :
  next_is_assistant messages idx = true ↔
  ∃ m, messages !! S idx = Some m ∧ is_assistant m = true.
Proof.
  unfold next_is_assistant. rewrite andb_true_iff, Z.ltb_lt. split.
  - intros [_ H]. destruct (messages !! S idx) as [m|]; [eauto | done].
  - intros (m & Hm & Ha). rewrite Hm. split; [|done].
    apply lookup_lt_Some in Hm. lia.
Qed.

Lemma end_of_eq idx :
  end_of idx = plen tokenizer messages (S idx) (next_is_assistant messages idx).
Proof.
  unfold message_end_idx, plen. rewrite Nat.add_1_r.
  by destruct (next_is_assistant messages idx).
Qed.

Lemma start_of_le idx : (idx ≤ n)%nat → (start_of idx ≤ plen tokenizer messages idx false)%nat.
Proof. unfold message_start_idx, plen. destruct (idx =? 0)%nat; lia. Qed.

(** A span ends where the next turn starts, at the latest ... *)
Lemma end_of_lower idx : (idx < n)%nat → (plen tokenizer messages (S idx) false ≤ end_of idx)%nat.
Proof.
  intros Hi. rewrite end_of_eq.
  destruct (next_is_assistant messages idx); [apply plen_prompt; lia | done].
Qed.

(** ... and, when an assistant turn follows, no later than where that
    turn ends. *)
Lemma end_of_upper idx :
  (S idx < n)%nat → (end_of idx ≤ plen tokenizer messages (S (S idx)) false)%nat.
Proof.
  intros Hi. rewrite end_of_eq.
  destruct (next_is_assistant messages idx) eqn:E.
  - apply next_is_assistant_spec in E as (m & Hm & Ha).
    by apply (plen_assistant _ m).
  - apply plen_step. lia.
Qed.

Lemma end_of_bound idx :
  (idx < n)%nat → (end_of idx ≤ length (rendered tokenizer messages))%nat.
Proof.
  intros Hi. unfold rendered. rewrite <- plen_full.
  destruct (decide (S idx = n)) as [E|Hne].
  - rewrite end_of_eq, E.
    destruct (next_is_assistant messages idx); [done | apply plen_prompt; lia].
  - etrans; [apply end_of_upper; lia|].
    etrans; [apply (plen_mono _ n); lia|]. apply plen_prompt. lia.
Qed.

Lemma start_le_end idx : (idx < n)%nat → (start_of idx ≤ end_of idx)%nat.
Proof.
  intros Hi. etrans; [apply start_of_le; lia|].
  etrans; [apply plen_step; lia|]. by apply end_of_lower.
Qed.

(** Under the contract the loop never changes the length of the labels. *)
Lemma masked_labels_spec :
  length (ex_labels (masked tokenizer messages))
  = length (rendered tokenizer messages)
  ∧ ∀ i, ex_labels (masked tokenizer messages) !! i
         = if masked_by tokenizer messages 0 messages i
              && bool_decide (i < length (rendered tokenizer messages))%nat
           then Some INGORE_INDEX
           else rendered tokenizer messages !! i.
Proof.
  apply mask_labels_bounded. intros k m Hk _. simpl.
  apply end_of_bound. by apply lookup_lt_Some in Hk.
Qed.

Lemma masked_lengths :
  length (ex_input_ids (masked tokenizer messages))
  = length (ex_labels (masked tokenizer messages))
  ∧ length (ex_labels (masked tokenizer messages))
    = length (ex_attention_mask (masked tokenizer messages)).
Proof.
  destruct masked_labels_spec as [Hl _]. rewrite Hl. simpl.
  rewrite length_repeat_list. split; [done | lia].
Qed.

Lemma assistant_start_lower idx :
  (0 < idx < n)%nat → (plen tokenizer messages idx false ≤ assistant_start tokenizer messages idx)%nat.
Proof.
  intros Hi. destruct idx as [|j]; [lia|]. simpl.
  destruct (messages !! j) as [m|]; [|done].
  destruct (is_assistant m); [done|]. apply end_of_lower. lia.
Qed.

Lemma assistant_span_unmasked idx m i :
  messages !! idx = Some m → is_assistant m = true →
  (assistant_start tokenizer messages idx ≤ i < assistant_end tokenizer messages idx)%nat →
  masked_by tokenizer messages 0 messages i = false.
Proof.
  intros Hidx Hm Hi. apply not_true_is_false. intros Hmask.
  apply masked_by_spec in Hmask as (k & m' & Hk & Hm' & Hspan).
  simpl in Hspan.
  pose proof (lookup_lt_Some _ _ _ Hidx) as Hlt.
  pose proof (lookup_lt_Some _ _ _ Hk) as Hklt.
  destruct (Nat.lt_total k idx) as [Hlt'|[->|Hgt]].
  - (* an earlier turn: its span ends before this one starts *)
    assert (end_of k ≤ assistant_start tokenizer messages idx)%nat; [|lia].
    destruct (decide (S k = idx)) as [<-|Hne].
    + simpl. by rewrite Hk, Hm'.
    + etrans; [apply end_of_upper; lia|].
      etrans; [apply (plen_mono _ idx); lia|].
      apply assistant_start_lower. lia.
  - congruence.
  - (* a later turn: it starts after this one ends *)
    assert (assistant_end tokenizer messages idx ≤ start_of k)%nat; [|lia].
    unfold assistant_end. destruct (decide (S idx = n)); [lia|].
    unfold message_start_idx. destruct (Nat.eqb_spec k 0); [lia|].
    apply (plen_mono (S idx) k); lia.
Qed.

End contract.

Lemma toy_prefix_consistent msgs : prefix_consistent Toy.tokenizer msgs.
Proof.
  repeat split; simpl; unfold Toy.render.
  - intros k Hk. destruct (lookup_lt_is_Some_2 msgs k Hk) as [m Hm].
    rewrite (take_S_r _ _ _ Hm), fmap_app, concat_app, !app_nil_r.
    by apply prefix_app_r.
  - intros k _. rewrite app_nil_r. by apply prefix_app_r.
  - intros k m Hm Ha.
    rewrite (take_S_r _ _ _ Hm), fmap_app, concat_app, app_nil_r. simpl.
    apply prefix_app. unfold Toy.turn_tokens. rewrite Ha.
    by exists [Toy.content_token m; Toy.EOT].
Qed.

(** ** Properties of the label-masking tokenizer *)

Lemma truncate_allocated n data (h : heap) :
  let r := truncate n data h in
  is_Some (r.2 !! input_ids r.1) ∧ is_Some (r.2 !! labels r.1)
  ∧ is_Some (r.2 !! attention_mask r.1).
Proof.
  unfold truncate, alloc. cbn [fst snd input_ids labels attention_mask].
  set (i' := fresh (dom h)).
  set (h5 := <[i' := _]> h).
  set (l' := fresh (dom h5)).
  set (h6 := <[l' := _]> h5).
  set (a' := fresh (dom h6)).
  assert (Hl' : h5 !! l' = None) by apply not_elem_of_dom, is_fresh.
  assert (Ha' : h6 !! a' = None) by apply not_elem_of_dom, is_fresh.
  assert (Si : is_Some (h5 !! i')) by (unfold h5; rewrite lookup_insert_eq; eauto).
  assert (Sl : is_Some (h6 !! l')) by (unfold h6; rewrite lookup_insert_eq; eauto).
  assert (l' ≠ i') by (intros E; rewrite E in Hl'; destruct Si; congruence).
  assert (a' ≠ l') by (intros E; rewrite E in Ha'; destruct Sl; congruence).
  assert (Si' : is_Some (h6 !! i')) by (unfold h6; by rewrite lookup_insert_ne).
  assert (a' ≠ i') by (intros E; rewrite E in Ha'; destruct Si'; congruence).
  repeat split.
  - by rewrite lookup_insert_ne.
  - by rewrite lookup_insert_ne.
  - rewrite lookup_insert_eq. eauto.
Qed.

Lemma preprocess_allocated tokenizer messages config (h : heap) :
  let r := preprocess_chat_dataset tokenizer messages config h in
  is_Some (r.2 !! input_ids r.1) ∧ is_Some (r.2 !! labels r.1)
  ∧ is_Some (r.2 !! attention_mask r.1).
Proof.
  cbv zeta. rewrite preprocess_unfold.
  destruct (config !! "max_length") as [k|]; [apply truncate_allocated|].
  destruct (masked_data_fresh tokenizer messages h) as (Hil & Hia & Hla & _).
  cbn [fst snd]. unfold masked_heap. repeat split.
  - rewrite !lookup_insert_ne by congruence. rewrite lookup_insert_eq. eauto.
  - rewrite lookup_insert_eq. eauto.
  - rewrite lookup_insert_ne by congruence. rewrite lookup_insert_eq. eauto.
Qed.

Lemma slice_to_lookup_eq (n : Z) (l k : list Z) (i : nat) :
  length l = length k → ((i < length l)%nat → l !! i = k !! i) →
  Py.slice_to n l !! i = Py.slice_to n k !! i.
Proof.
  intros Hlen Hi.
  pose proof (slice_to_length_eq n l k Hlen) as Hs.
  pose proof (prefix_length _ _ (slice_to_prefix n l)) as Hp.
  destruct (decide (i < length (Py.slice_to n l))%nat) as [Hlt|Hge].
  - rewrite !slice_to_lookup by lia. apply Hi. lia.
  - rewrite !lookup_ge_None_2; [done | lia | lia].
Qed.

Lemma role_not_assistant m : role m ≠ "assistant" ↔ is_assistant m = false.
Proof. unfold is_assistant. by rewrite bool_decide_eq_false. Qed.

Lemma role_assistant m : role m = "assistant" ↔ is_assistant m = true.
Proof. unfold is_assistant. by rewrite bool_decide_eq_true. Qed.

(** The loop only ever writes the object bound to ["labels"]. *)
Lemma mask_loop_frame tokenizer messages data rest : ∀ idx (h : heap) x,
  x ≠ labels data →
  mask_loop tokenizer messages data idx rest h !! x = h !! x.
Proof.
  induction rest as [|m rest IH]; intros idx h x Hx; simpl; [done|].
  rewrite IH by done. unfold mask_turn.
  destruct (negb (is_assistant m)); [|done]. by rewrite lookup_insert_ne.
Qed.

(** C1. Under the render contract, for every conversation: the span of a
    non-assistant turn runs from the length of the rendering of the turns
    before it (0 for the first turn) to the length of the rendering up to and
    including it, taken with the generation prompt exactly when the next turn
    is an assistant turn; every returned label in such a span is IGNORE;
    every position in the span of an assistant turn, and more generally every
    position outside the masked spans, has its label equal to its input id.
    In the scenario [user "2+2?"; assistant "4"] with renderings of lengths 5
    (first turn with prompt) and 9 (whole conversation with prompt), the
    labels at 0..4 are IGNORE and those at 5..8 are the input ids. *)
Theorem masked_spans_exact :
  (∀ tokenizer messages config (h : heap),
     prefix_consistent tokenizer messages →
     let r := preprocess_chat_dataset tokenizer messages config h in
     let ex := view r.2 r.1 in
     (message_start_idx tokenizer messages 0 = 0%nat
      ∧ (∀ idx, idx ≠ 0%nat →
           message_start_idx tokenizer messages idx
           = length (apply_chat_template tokenizer (take idx messages) false))
      ∧ ∀ idx, ∃ g : bool,
          message_end_idx tokenizer messages idx
          = length (apply_chat_template tokenizer (take (S idx) messages) g)
          ∧ (g = true ↔ ∃ m, messages !! S idx = Some m ∧ role m = "assistant"))
     ∧ (∀ idx m i,
          messages !! idx = Some m → role m ≠ "assistant" →
          (message_start_idx tokenizer messages idx ≤ i
           < message_end_idx tokenizer messages idx)%nat →
          (i < length (ex_labels ex))%nat →
          ex_labels ex !! i = Some INGORE_INDEX)
     ∧ (∀ idx m i,
          messages !! idx = Some m → role m = "assistant" →
          (assistant_start tokenizer messages idx ≤ i
           < assistant_end tokenizer messages idx)%nat →
          ex_labels ex !! i = ex_input_ids ex !! i)
     ∧ (∀ i, masked_by tokenizer messages 0 messages i = false →
             ex_labels ex !! i = ex_input_ids ex !! i))
  ∧ (∀ tokenizer q a config (h : heap),
       let messages := [mkTurn "user" q; mkTurn "assistant" a] in
       length (apply_chat_template tokenizer (take 1 messages) true) = 5%nat →
       length (apply_chat_template tokenizer messages true) = 9%nat →
       config !! "max_length" = None →
       let r := preprocess_chat_dataset tokenizer messages config h in
       let ex := view r.2 r.1 in
       length (ex_labels ex) = 9%nat
       ∧ take 5 (ex_labels ex) = replicate 5 INGORE_INDEX
       ∧ drop 5 (ex_labels ex) = drop 5 (ex_input_ids ex)).
Proof.
  split.
  - intros tokenizer messages config h Hc r ex.
    assert (Hex : ex = tokenized tokenizer messages config)
      by apply preprocess_view.
    destruct (masked_labels_spec tokenizer messages Hc) as [Hlen Hlab].
    assert (Hunmasked : ∀ i,
      masked_by tokenizer messages 0 messages i = false →
      ex_labels ex !! i = ex_input_ids ex !! i).
    { intros i Hi. rewrite Hex. unfold tokenized.
      assert (Hm : (i < length (ex_labels (masked tokenizer messages)))%nat →
                   ex_labels (masked tokenizer messages) !! i
                   = ex_input_ids (masked tokenizer messages) !! i).
      { intros _. by rewrite Hlab, Hi. }
      destruct (config !! "max_length") as [k|].
      - unfold truncated. cbn [ex_labels ex_input_ids].
        apply slice_to_lookup_eq; [exact Hlen | exact Hm].
      - destruct (decide (i < length (ex_labels (masked tokenizer messages)))%nat).
        + by apply Hm.
        + assert (length (ex_input_ids (masked tokenizer messages))
                  = length (ex_labels (masked tokenizer messages)))
            by (by rewrite Hlen).
          rewrite !lookup_ge_None_2; [done | lia | lia]. }
    split; [|split; [|split]].
    + split; [done|]. split.
      { intros idx Hidx. unfold message_start_idx.
        by destruct (Nat.eqb_spec idx 0). }
      intros idx.
      exists (next_is_assistant messages idx). split.
      * apply (end_of_eq tokenizer messages).
      * rewrite next_is_assistant_spec.
        split; intros (m & Hm & Ha); exists m; by rewrite role_assistant in *.
    + intros idx m i Hidx Hrole Hspan Hi.
      apply role_not_assistant in Hrole.
      assert (Hmask : masked_by tokenizer messages 0 messages i = true).
      { apply masked_by_spec. exists idx, m. simpl. done. }
      assert (Hb : (i < length (rendered tokenizer messages))%nat).
      { pose proof (end_of_bound tokenizer messages Hc idx
                      (lookup_lt_Some _ _ _ Hidx)). lia. }
      assert (Hm : ex_labels (masked tokenizer messages) !! i = Some INGORE_INDEX).
      { rewrite Hlab, Hmask. simpl. by rewrite bool_decide_true. }
      revert Hi. rewrite Hex. unfold tokenized.
      destruct (config !! "max_length") as [k|]; [|done].
      unfold truncated. cbn [ex_labels]. intros Hi. by rewrite slice_to_lookup.
    + intros idx m i Hidx Hrole Hspan. apply Hunmasked.
      apply role_assistant in Hrole.
      by apply (assistant_span_unmasked tokenizer messages Hc idx m).
    + exact Hunmasked.
  - intros tokenizer q a config h messages H5 H9 Hcfg r ex.
    assert (Hex : ex = tokenized tokenizer messages config)
      by apply preprocess_view.
    rewrite Hex. unfold tokenized. rewrite Hcfg.
    unfold masked, rendered. cbn [ex_labels ex_input_ids].
    set (inputs := apply_chat_template tokenizer messages true) in *.
    assert (Hlab : mask_labels tokenizer messages 0 messages inputs
                   = replicate 5 INGORE_INDEX ++ drop 5 inputs).
    { unfold messages at 2. simpl. unfold mask_step. simpl.
      unfold message_start_idx, message_end_idx, next_is_assistant. simpl.
      change (take 1 messages) with (take 1 messages) in H5.
      unfold messages in H5 at 1. simpl in H5. rewrite H5.
      unfold Py.slice_assign, Py.repeat_list. rewrite H9. done. }
    rewrite Hlab. split; [|split].
    + rewrite length_app, length_replicate, length_drop. lia.
    + rewrite take_app_length'; [done | by rewrite length_replicate].
    + rewrite drop_app_length'; [done | by rewrite length_replicate].
Qed.

(** C1, run on the small template: the scenario's conversation renders to
    0/5/3/9 tokens and its labels come out as the claim says. *)
Lemma masked_spans_exact_witness :
  prefix_consistent Toy.tokenizer Toy.conversation
  ∧ length (Toy.render [] false) = 0%nat
  ∧ length (Toy.render (take 1 Toy.conversation) true) = 5%nat
  ∧ length (Toy.render (take 1 Toy.conversation) false) = 3%nat
  ∧ length (Toy.render Toy.conversation true) = 9%nat
  ∧ (let r := preprocess_chat_dataset Toy.tokenizer Toy.conversation ∅ ∅ in
     let ex := view r.2 r.1 in
     (∀ i, (0 ≤ i < 5)%nat → (i < length (ex_labels ex))%nat →
           ex_labels ex !! i = Some INGORE_INDEX)
     ∧ length (ex_labels ex) = 9%nat
     ∧ take 5 (ex_labels ex) = replicate 5 INGORE_INDEX
     ∧ drop 5 (ex_labels ex) = drop 5 (ex_input_ids ex)).
Proof.
  split; [apply toy_prefix_consistent|].
  do 4 (split; [reflexivity|]).
  destruct masked_spans_exact as [Hgen Hscn].
  specialize (Hgen Toy.tokenizer Toy.conversation ∅ ∅
                (toy_prefix_consistent Toy.conversation)).
  specialize (Hscn Toy.tokenizer "2+2?" "4" ∅ ∅ eq_refl eq_refl eq_refl).
  cbv zeta in *.
  destruct Hgen as (_ & Hmask & _). split; [|exact Hscn].
  intros i Hi Hlen.
  apply (Hmask 0%nat (mkTurn "user" "2+2?") i); [done | done | exact Hi | exact Hlen].
Defined.

(** C5. Under the render contract, for every conversation and every
    configuration (no [max_length], or any [max_length]), the three returned
    sequences have the same length. *)
Theorem lengths_agree tokenizer messages config (h : heap) :
  prefix_consistent tokenizer messages →
  let r := preprocess_chat_dataset tokenizer messages config h in
  let ex := view r.2 r.1 in
  length (ex_input_ids ex) = length (ex_labels ex)
  ∧ length (ex_labels ex) = length (ex_attention_mask ex).
Proof.
  intros Hc r ex.
  assert (Hex : ex = tokenized tokenizer messages config)
    by apply preprocess_view.
  destruct (masked_lengths tokenizer messages Hc) as [H1 H2].
  rewrite Hex. unfold tokenized.
  destruct (config !! "max_length") as [k|]; [|done].
  unfold truncated. cbn [ex_input_ids ex_labels ex_attention_mask].
  split; by apply slice_to_length_eq.
Qed.

Lemma lengths_agree_witness :
  prefix_consistent Toy.tokenizer Toy.conversation
  ∧ (let r := preprocess_chat_dataset Toy.tokenizer Toy.conversation
                {["max_length" := 6]} ∅ in
     let ex := view r.2 r.1 in
     length (ex_input_ids ex) = length (ex_labels ex)
     ∧ length (ex_labels ex) = length (ex_attention_mask ex)).
Proof.
  split; [apply toy_prefix_consistent|].
  apply (lengths_agree Toy.tokenizer Toy.conversation {["max_length" := 6]} ∅).
  apply toy_prefix_consistent.
Defined.

(** The render contract is what keeps the lengths equal: with a template
    whose prefix rendering is longer than the full one, the slice assignment
    makes the labels outgrow the input ids. *)
Example labels_outgrow_without_contract :
  let r := preprocess_chat_dataset Toy.shrinking [mkTurn "user" "hi"] ∅ ∅ in
  view r.2 r.1
  = {| ex_input_ids := []; ex_labels := [INGORE_INDEX]; ex_attention_mask := [] |}.
Proof. cbv zeta. rewrite preprocess_view. reflexivity. Qed.

(** C6. With [max_length = n >= 0] configured, each returned field is the
    first [n] elements of the field returned without [max_length]; without
    [max_length] nothing is cut: the input ids are the whole rendering and
    the result is the one any other configuration without [max_length]
    gives. *)
Theorem truncation_keeps_prefix tokenizer messages config (h h' : heap) :
  let r := preprocess_chat_dataset tokenizer messages config h in
  let ex := view r.2 r.1 in
  let r' := preprocess_chat_dataset tokenizer messages
              (delete "max_length" config) h' in
  let full := view r'.2 r'.1 in
  (∀ n, config !! "max_length" = Some n → 0 ≤ n →
        ex_input_ids ex = take (Z.to_nat n) (ex_input_ids full)
        ∧ ex_labels ex = take (Z.to_nat n) (ex_labels full)
        ∧ ex_attention_mask ex = take (Z.to_nat n) (ex_attention_mask full))
  ∧ (config !! "max_length" = None →
     ex = full
     ∧ ex_input_ids ex = apply_chat_template tokenizer messages true).
Proof.
  intros r ex r' full.
  assert (Hex : ex = tokenized tokenizer messages config)
    by apply preprocess_view.
  assert (Hfull : full = masked tokenizer messages).
  { unfold full, r'. rewrite preprocess_view. unfold tokenized.
    by rewrite lookup_delete_eq. }
  rewrite Hex, Hfull. unfold tokenized. split.
  - intros k -> Hk. unfold truncated.
    cbn [ex_input_ids ex_labels ex_attention_mask].
    by rewrite !slice_to_take.
  - by intros ->.
Qed.

Lemma truncation_keeps_prefix_witness :
  let r := preprocess_chat_dataset Toy.tokenizer Toy.conversation
             {["max_length" := 6]} ∅ in
  let ex := view r.2 r.1 in
  let r' := preprocess_chat_dataset Toy.tokenizer Toy.conversation
              (delete "max_length" {["max_length" := 6]}) ∅ in
  let full := view r'.2 r'.1 in
  ex_input_ids ex = take 6 (ex_input_ids full)
  ∧ ex_labels ex = take 6 (ex_labels full)
  ∧ ex_attention_mask ex = take 6 (ex_attention_mask full).
Proof.
  apply (proj1 (truncation_keeps_prefix Toy.tokenizer Toy.conversation
                  {["max_length" := 6]} ∅ ∅) 6); [reflexivity | lia].
Defined.

(** C9. Calling the function a second time, in the store the first call
    left, returns a dictionary with the same three sequences, and leaves the
    first dictionary's sequences as they were; more generally the sequences
    returned do not depend on the store the call starts from. *)
Theorem tokenizing_twice tokenizer messages config (h : heap) :
  let r1 := preprocess_chat_dataset tokenizer messages config h in
  let r2 := preprocess_chat_dataset tokenizer messages config r1.2 in
  view r2.2 r2.1 = view r1.2 r1.1
  ∧ view r2.2 r1.1 = view r1.2 r1.1
  ∧ ∀ h' : heap,
      let r' := preprocess_chat_dataset tokenizer messages config h' in
      view r'.2 r'.1 = view r1.2 r1.1.
Proof.
  intros r1 r2. split; [|split].
  - unfold r2, r1. by rewrite !preprocess_view.
  - destruct (preprocess_allocated tokenizer messages config h)
      as (Hi & Hl & Ha).
    fold r1 in Hi, Hl, Ha.
    unfold view, deref. f_equal; f_equal; by apply preprocess_frame.
  - intros h' r'. unfold r', r1. by rewrite !preprocess_view.
Qed.

(** C10. Without [max_length], the returned input ids are the rendering of
    the whole conversation with the generation prompt and the attention mask
    is that many ones, whatever the loop masked: the loop writes no object
    but the one bound to ["labels"], which is not the same object as the
    input ids or the attention mask. *)
Theorem masking_touches_labels_only tokenizer messages config (h : heap) :
  config !! "max_length" = None →
  let r := preprocess_chat_dataset tokenizer messages config h in
  let ex := view r.2 r.1 in
  ex_input_ids ex = apply_chat_template tokenizer messages true
  ∧ ex_attention_mask ex
    = replicate (length (apply_chat_template tokenizer messages true)) 1
  ∧ input_ids r.1 ≠ labels r.1 ∧ attention_mask r.1 ≠ labels r.1
  ∧ ∀ data idx rest (h0 : heap) x,
      x ≠ labels data →
      mask_loop tokenizer messages data idx rest h0 !! x = h0 !! x.
Proof.
  intros Hcfg r ex.
  assert (Hex : ex = tokenized tokenizer messages config)
    by apply preprocess_view.
  assert (Hr : r = (masked_data tokenizer messages h,
                    masked_heap tokenizer messages h)).
  { unfold r. by rewrite preprocess_unfold, Hcfg. }
  destruct (masked_data_fresh tokenizer messages h) as (Hil & Hia & Hla & _).
  rewrite Hex, Hr. unfold tokenized. rewrite Hcfg. cbn [fst].
  split; [done|]. split.
  { cbn [masked ex_attention_mask]. unfold Py.repeat_list.
    by rewrite Nat2Z.id. }
  split; [done|]. split; [congruence|].
  intros data idx rest h0 x Hx. by apply mask_loop_frame.
Qed.

Lemma masking_touches_labels_only_witness :
  let r := preprocess_chat_dataset Toy.tokenizer Toy.conversation ∅ ∅ in
  let ex := view r.2 r.1 in
  ex_input_ids ex = Toy.render Toy.conversation true
  ∧ ex_attention_mask ex = replicate (length (Toy.render Toy.conversation true)) 1.
Proof.
  pose proof (masking_touches_labels_only Toy.tokenizer Toy.conversation ∅ ∅
                eq_refl) as (H1 & H2 & _).
  split; [exact H1 | exact H2].
Defined.

(** C8. For every record with a question, a rationale and a final answer the
    formatter returns a conversation of two turns: a user turn holding the
    question (between two newlines) and an assistant turn holding the
    rationale under the heading "# Thinking" and then the final answer under
    the heading "## Final Response".  The result depends on these three
    columns only. *)
Theorem formatter_two_turns (example : gmap string string) q cot resp :
  example !! "Question" = Some q →
  example !! "Complex_CoT" = Some cot →
  example !! "Response" = Some resp →
  apply_input_output_template example
  = Some {| conversation :=
              [ mkTurn "user" (nl +:+ q +:+ nl);
                mkTurn "assistant"
                  (nl +:+ "# Thinking" +:+ nl +:+ nl +:+ nl +:+ cot
                   +:+ nl +:+ nl +:+ nl +:+ "## Final Response"
                   +:+ nl +:+ nl +:+ nl +:+ resp +:+ nl) ] |}
  ∧ ∀ example' : gmap string string,
      example' !! "Question" = Some q →
      example' !! "Complex_CoT" = Some cot →
      example' !! "Response" = Some resp →
      apply_input_output_template example' = apply_input_output_template example.
Proof.
  assert (Hrun : ∀ e : gmap string string,
    e !! "Question" = Some q → e !! "Complex_CoT" = Some cot →
    e !! "Response" = Some resp →
    apply_input_output_template e
    = Some {| conversation :=
                [ mkTurn "user" (nl +:+ q +:+ nl);
                  mkTurn "assistant"
                    (nl +:+ "# Thinking" +:+ nl +:+ nl +:+ nl +:+ cot
                     +:+ nl +:+ nl +:+ nl +:+ "## Final Response"
                     +:+ nl +:+ nl +:+ nl +:+ resp +:+ nl) ] |}).
  { intros e Hq Hc Hr. unfold apply_input_output_template.
    rewrite Hq, Hc, Hr. simpl.
    rewrite lookup_singleton_eq. simpl.
    rewrite lookup_insert_eq. simpl.
    rewrite lookup_insert_ne by done. rewrite lookup_singleton_eq. simpl.
    reflexivity. }
  intros Hq Hc Hr. split; [by apply Hrun|].
  intros e' Hq' Hc' Hr'. rewrite !Hrun; done.
Qed.

Lemma formatter_two_turns_witness :
  apply_input_output_template
    {[ "Question" := "2+2?"; "Complex_CoT" := "two and two"; "Response" := "4" ]}
  = Some {| conversation :=
              [ mkTurn "user" (nl +:+ "2+2?" +:+ nl);
                mkTurn "assistant"
                  (nl +:+ "# Thinking" +:+ nl +:+ nl +:+ nl +:+ "two and two"
                   +:+ nl +:+ nl +:+ nl +:+ "## Final Response"
                   +:+ nl +:+ nl +:+ nl +:+ "4" +:+ nl) ] |}.
Proof.
  apply (formatter_two_turns _ "2+2?" "two and two" "4"); reflexivity.
Defined.

(** ** Facts about the trainer *)

Section trainer_facts.
Context `{TorchOps}.

Lemma milestones_app a b : milestones (a ++ b) = milestones a ++ milestones b.
Proof. apply omap_app. Qed.

Lemma for_each_log {A} (xs : list A) (body : A → M unit) (g : A → event) :
  (∀ x st, body x st = log (g x) st) →
  ∀ st, for_each xs body st
        = (mkState (self st) (torch st) (files st) (trace st ++ (g <$> xs)),
           Ok tt).
Proof.
  intros Hb. induction xs as [|x xs IH]; intros st; simpl.
  - rewrite app_nil_r. by destruct st.
  - unfold bind. rewrite Hb. unfold log. rewrite IH. cbn.
    by rewrite <- app_assoc.
Qed.

Lemma run_batch_exact batch tr st :
  let loss := forward_loss (torch st) batch in
  let calls := batch_calls (config (self st)) batch tr loss in
  _run_batch batch tr st
  = (mkState (self st) (foldl (λ w c, exec c w) (torch st) calls) (files st)
       (trace st ++ (Torch <$> calls)),
     Ok loss).
Proof.
  unfold _run_batch, batch_calls, bind, get, when, torch_call, ret.
  destruct tr, (use_amp (config (self st))); cbn;
    rewrite <- ?app_assoc; reflexivity.
Qed.


Lemma gather_ok_spec t :
  gather_ok t = true ↔ (local_rank t = 0 ↔ global_rank t = 0).
Proof.
  unfold gather_ok.
  destruct (Z.eqb_spec (local_rank t) 0), (Z.eqb_spec (global_rank t) 0);
    cbn; intuition congruence.
Qed.

(** One iteration of the loop of [_run_epoch]. *)
Lemma iteration_exact epoch tr (x : Z * Batch) st :
  (λ '(iter, batch),
     batch_loss <- _run_batch batch tr ;;
     when (iter `mod` 100 =? 0)
       (st <- get ;;
        let t := self st in
        if tr then
          print (TrainLoss (global_rank t) epoch iter batch_loss)
        else
          let eval_loss_list :=
            if local_rank t =? 0 then gathered (torch st) batch_loss
            else replicate (Z.to_nat (world_size t)) (zeros_like batch_loss) in
          dist_gather batch_loss (local_rank t =? 0) ;;;
          when (local_rank t =? 0)
            (for_each (enumerate eval_loss_list)
               (λ '(i, loss), print (EvalLoss i epoch iter loss))))) x st
  = (mkState (self st) (iteration_world (self st) tr (torch st) x) (files st)
       (trace st ++ iteration_events (self st) tr epoch (torch st) x),
     if iteration_raises (self st) tr x then Raise ValueError else Ok tt).
Proof.
  destruct x as [iter batch]. unfold bind at 1. rewrite run_batch_exact.
  unfold iteration_world, iteration_events, iteration_raises. cbn [fst snd].
  destruct (iter `mod` 100 =? 0); cbn [when andb].
  2:{ unfold ret. by rewrite app_nil_r. }
  unfold bind at 1. cbn [get self torch].
  destruct tr; cbn [negb].
  { unfold print, log. cbn. by rewrite <- app_assoc. }
  unfold bind at 1, dist_gather. unfold bind at 1. cbn [get self].
  fold (gather_ok (self st)).
  destruct (gather_ok (self st)); cbn [negb].
  2:{ unfold raise. by rewrite app_nil_r. }
  cbn [torch_call self torch files trace].
  destruct (local_rank (self st) =? 0); cbn [when].
  - rewrite (for_each_log _ _ (λ il : Z * Loss,
                                 Print (EvalLoss il.1 epoch iter il.2)))
      by (by intros [i l] st').
    cbn. by rewrite <- !app_assoc.
  - unfold ret. by rewrite <- app_assoc.
Qed.

Lemma pass_exact epoch tr (xs : list (Z * Batch)) : ∀ st,
  for_each xs
    (λ '(iter, batch),
       batch_loss <- _run_batch batch tr ;;
       when (iter `mod` 100 =? 0)
         (st <- get ;;
          let t := self st in
          if tr then
            print (TrainLoss (global_rank t) epoch iter batch_loss)
          else
            let eval_loss_list :=
              if local_rank t =? 0 then gathered (torch st) batch_loss
              else replicate (Z.to_nat (world_size t)) (zeros_like batch_loss) in
            dist_gather batch_loss (local_rank t =? 0) ;;;
            when (local_rank t =? 0)
              (for_each (enumerate eval_loss_list)
                 (λ '(i, loss), print (EvalLoss i epoch iter loss))))) st
  = (mkState (self st) (pass_world (self st) tr (torch st) xs) (files st)
       (trace st ++ pass_events (self st) tr epoch (torch st) xs),
     pass_result (self st) tr xs).
Proof.
  match goal with |- ∀ st, for_each xs ?b st = _ => set (body := b) end.
  assert (Hbody : ∀ x st,
            body x st
            = (mkState (self st) (iteration_world (self st) tr (torch st) x)
                 (files st)
                 (trace st ++ iteration_events (self st) tr epoch (torch st) x),
               if iteration_raises (self st) tr x then Raise ValueError
               else Ok tt))
    by (intros; apply iteration_exact).
  clearbody body.
  induction xs as [|x xs IH]; intros st;
    cbn [for_each pass_world pass_events pass_result].
  - unfold ret. rewrite app_nil_r. by destruct st.
  - unfold bind at 1. rewrite Hbody.
    destruct (iteration_raises (self st) tr x).
    + by rewrite app_nil_r.
    + rewrite IH. cbn. by rewrite <- app_assoc.
Qed.

(** What [_run_epoch] does, exactly. *)
Lemma run_epoch_exact epoch which tr st :
  let t := self st in
  let xs := enumerate (dl_batches (loader_of which t) epoch) in
  let w := exec (SetEpoch which epoch) (torch st) in
  _run_epoch epoch which tr st
  = (mkState t (pass_world t tr w xs) (files st)
       (trace st ++ Torch (SetEpoch which epoch) :: pass_events t tr epoch w xs),
     pass_result t tr xs).
Proof.
  unfold _run_epoch. unfold bind at 1. cbn [torch_call].
  unfold bind at 1. cbn [get self]. rewrite pass_exact. cbn.
  by rewrite <- app_assoc.
Qed.

Lemma milestones_pass t tr epoch (xs : list (Z * Batch)) : ∀ w,
  milestones (pass_events t tr epoch w xs) = [].
Proof.
  induction xs as [|x xs IH]; intros w; [done|].
  cbn [pass_events]. rewrite milestones_app.
  assert (Hit : milestones (iteration_events t tr epoch w x) = []).
  { unfold iteration_events, batch_calls, milestones. rewrite omap_app.
    assert (Hrest : ∀ l : list (Z * Loss),
              omap milestone_of
                ((λ il, Print (EvalLoss il.1 epoch x.1 il.2)) <$> l) = []).
    { induction l as [|y l IHl]; [done | exact IHl]. }
    destruct (x.1 `mod` 100 =? 0), tr, (use_amp (config t)), (gather_ok t),
      (local_rank t =? 0); cbn; rewrite ?Hrest; reflexivity. }
  rewrite Hit. destruct (iteration_raises t tr x); [done | apply IH].
Qed.

(** *** How a pass ends *)

Lemma pass_result_train t (xs : list (Z * Batch)) : pass_result t true xs = Ok tt.
Proof.
  induction xs as [|x xs IH]; [done|]. cbn [pass_result].
  unfold iteration_raises. cbn [negb]. by rewrite andb_false_r.
Qed.

Lemma pass_result_gather_ok t tr (xs : list (Z * Batch)) :
  gather_ok t = true → pass_result t tr xs = Ok tt.
Proof.
  intros Hg. induction xs as [|x xs IH]; [done|]. cbn [pass_result].
  unfold iteration_raises. rewrite Hg. cbn [negb]. by rewrite andb_false_r.
Qed.

Lemma pass_result_cases t tr (xs : list (Z * Batch)) :
  pass_result t tr xs = Ok tt
  ∨ (pass_result t tr xs = Raise ValueError ∧ tr = false
     ∧ gather_ok t = false ∧ xs ≠ []).
Proof.
  destruct tr; [left; apply pass_result_train|].
  destruct (gather_ok t) eqn:Hg; [left; by apply pass_result_gather_ok|].
  induction xs as [|x xs IH]; [by left|]. cbn [pass_result].
  destruct (iteration_raises t false x); [by right|].
  destruct IH as [IH|(IH & _)]; [by left | by right].
Qed.


Lemma eval_result_cases t epoch :
  eval_result t epoch = Ok tt
  ∨ (eval_result t epoch = Raise ValueError ∧ gather_ok t = false
     ∧ dl_len (test_dataloader t) ≠ 0).
Proof.
  unfold eval_result. destruct (Z.eqb_spec (dl_len (test_dataloader t)) 0);
    cbn [negb]; [by left|].
  destruct (pass_result_cases t false
              (enumerate (dl_batches (test_dataloader t) epoch)))
    as [E|(E & _ & Hg & _)]; [by left | by right].
Qed.

(** A pass over a loader leaves the trainer object and the files as they
    were; it sets the sampler's epoch and then passes no further milestone.
    A training pass always completes; an evaluation pass raises when
    [dist.gather] rejects its first call. *)
Lemma run_epoch_spec epoch which tr st :
  let t := self st in
  ∃ st',
    _run_epoch epoch which tr st
    = (st', pass_result t tr (enumerate (dl_batches (loader_of which t) epoch)))
    ∧ self st' = t ∧ files st' = files st
    ∧ ∃ delta, trace st' = trace st ++ delta
               ∧ milestones delta = [pass which epoch].
Proof.
  intros t. rewrite run_epoch_exact. fold t. eexists. split; [reflexivity|].
  cbn [self files trace]. split; [done|]. split; [done|].
  eexists. split; [reflexivity|].
  change (Torch (SetEpoch which epoch) :: ?l)
    with ([Torch (SetEpoch which epoch)] ++ l).
  rewrite milestones_app, milestones_pass. by destruct which.
Qed.

Lemma save_snapshot_spec epoch st p :
  snapshot_path (config (self st)) = Some p →
  let s := mkSnapshot (state_dict (torch st)) (optimizer_state_dict (torch st))
             epoch in
  _save_snapshot epoch st
  = (mkState (self st) (torch st) (<[p := FileSnapshot s]> (files st))
       (trace st ++ [TorchSave p s; Print (SnapshotSaved epoch)]),
     Ok tt).
Proof.
  intros Hp. unfold _save_snapshot, bind, get, write_file, print, log.
  rewrite Hp. cbn. by rewrite <- app_assoc.
Qed.

Lemma save_snapshot_none epoch st :
  snapshot_path (config (self st)) = None →
  _save_snapshot epoch st = (st, Raise TypeError).
Proof. intros Hp. unfold _save_snapshot, bind, get. by rewrite Hp. Qed.

Lemma eval_stage_spec epoch (t : Trainer) st :
  self st = t →
  ∃ st' d,
    when (negb (dl_len (test_dataloader t) =? 0))
      (_run_epoch epoch TestLoader false) st = (st', eval_result t epoch)
    ∧ self st' = t ∧ files st' = files st
    ∧ trace st' = trace st ++ d
    ∧ milestones d
      = (if negb (dl_len (test_dataloader t) =? 0) then [EvalPass epoch] else []).
Proof.
  intros <-. unfold eval_result.
  destruct (negb (dl_len (test_dataloader (self st)) =? 0)); simpl.
  - destruct (run_epoch_spec epoch TestLoader false st)
      as (st' & E & Hs & Hf & d & Ht & Hm).
    by exists st', d.
  - exists st, []. by rewrite app_nil_r.
Qed.

(** One iteration of the epoch loop: it leaves the trainer object as it
    was.  Either it reaches the evaluation stage, having passed the
    milestones of [epoch_plan] and written the snapshot that is due, and ends
    as the evaluation stage ends; or it fails before, on local rank 0, on a
    zero [save_every] or a missing snapshot path, having written nothing. *)
Lemma train_body_spec e st :
  let t := self st in
  ∃ st' r delta,
    train_body e st = (st', r) ∧ self st' = t
    ∧ trace st' = trace st ++ delta
    ∧ ((milestones delta = epoch_plan t (e + 1)
        ∧ (if saves t (e + 1)
           then ∃ p, snapshot_path (config t) = Some p
                     ∧ holds_snapshot (files st') p (e + 1)
           else files st' = files st)
        ∧ r = eval_result t (e + 1))
       ∨ (milestones delta `prefix_of` epoch_plan t (e + 1)
          ∧ local_rank t = 0
          ∧ (self_save_every t = 0 ∨ snapshot_path (config t) = None)
          ∧ files st' = files st
          ∧ (r = Raise ZeroDivisionError ∨ r = Raise TypeError))).
Proof.
  intros t. unfold train_body.
  destruct (run_epoch_spec (e + 1) TrainLoader true st)
    as (st1 & E1 & Hs1 & Hf1 & d1 & Ht1 & Hm1).
  rewrite pass_result_train in E1. fold t in Hs1.
  unfold bind at 1. rewrite E1. unfold bind at 1. cbn [get].
  rewrite Hs1. unfold epoch_plan, saves.
  destruct (Z.eqb_spec (local_rank t) 0) as [Hr|Hr]; cbn [andb].
  - destruct (Z.eqb_spec (self_save_every t) 0) as [Hz|Hz]; cbn [andb negb].
    + (* save_every = 0: the remainder raises *)
      exists st1, (Raise ZeroDivisionError), d1. unfold bind, raise.
      split; [done|]. split; [done|]. split; [done|]. right.
      repeat split; try done; [|by left|by left].
      rewrite Hm1. by apply prefix_cons, prefix_nil.
    + destruct (Z.eqb_spec ((e + 1) `mod` self_save_every t) 0) as [Hm|Hm];
        cbn [when].
      * destruct (snapshot_path (config t)) as [p|] eqn:Hp.
        -- assert (Hp1 : snapshot_path (config (self st1)) = Some p)
             by (by rewrite Hs1).
           pose proof (save_snapshot_spec (e + 1) st1 p Hp1) as E2.
           cbv zeta in E2. unfold bind at 1. rewrite E2.
           match goal with
           | |- context [when _ _ ?st2] =>
               destruct (eval_stage_spec (e + 1) t st2 Hs1)
                 as (st3 & d3 & E3 & Hs3 & Hf3 & Ht3 & Hm3)
           end.
           cbn [self files trace] in *.
           exists st3, (eval_result t (e + 1)). eexists. split; [exact E3|].
           split; [done|]. split.
           { rewrite Ht3, Ht1, <- !app_assoc. reflexivity. }
           left. split.
           { rewrite !milestones_app, Hm1, Hm3. done. }
           split; [|done].
           exists p. split; [done|]. rewrite Hf3. eexists.
           rewrite lookup_insert_eq. split; [done|]. done.
        -- exists st1, (Raise TypeError), d1.
           assert (Hp1 : snapshot_path (config (self st1)) = None)
             by (by rewrite Hs1).
           unfold bind at 1. rewrite (save_snapshot_none _ _ Hp1).
           split; [done|]. split; [done|]. split; [done|]. right.
           repeat split; try done; [|by right|by right].
           rewrite Hm1. by apply prefix_cons, prefix_nil.
      * unfold bind at 1. cbn [ret].
        destruct (eval_stage_spec (e + 1) t st1 Hs1)
          as (st3 & d3 & E3 & Hs3 & Hf3 & Ht3 & Hm3).
        exists st3, (eval_result t (e + 1)), (d1 ++ d3). split; [exact E3|].
        split; [done|]. split; [by rewrite Ht3, Ht1, app_assoc|].
        left. split; [by rewrite milestones_app, Hm1, Hm3|].
        split; [congruence | done].
  - unfold bind at 1. cbn [ret].
    destruct (eval_stage_spec (e + 1) t st1 Hs1)
      as (st3 & d3 & E3 & Hs3 & Hf3 & Ht3 & Hm3).
    exists st3, (eval_result t (e + 1)), (d1 ++ d3). split; [exact E3|].
    split; [done|]. split; [by rewrite Ht3, Ht1, app_assoc|].
    left. split; [by rewrite milestones_app, Hm1, Hm3|].
    split; [congruence | done].
Qed.

(** The whole loop over a list of epochs.  [es1] are the epochs whose
    iteration reached its evaluation stage. *)
Lemma train_loop_spec es : ∀ st,
  let t := self st in
  ∃ st' r delta es1,
    for_each es train_body st = (st', r) ∧ self st' = t
    ∧ trace st' = trace st ++ delta
    ∧ es1 `prefix_of` es
    ∧ milestones delta `prefix_of` plan t es
    ∧ match last_saved t es1 with
      | Some e => ∃ p, snapshot_path (config t) = Some p
                       ∧ holds_snapshot (files st') p e
      | None => files st' = files st
      end
    ∧ match r with
      | Ok _ => es1 = es ∧ milestones delta = plan t es
      | Raise ValueError =>
          gather_ok t = false ∧ dl_len (test_dataloader t) ≠ 0
      | Raise _ =>
          local_rank t = 0
          ∧ (self_save_every t = 0 ∨ snapshot_path (config t) = None)
          ∧ files st' = files st
      end.
Proof.
  induction es as [|e es IH]; intros st t; cbn [for_each].
  - exists st, (Ok tt), [], []. by rewrite app_nil_r.
  - destruct (train_body_spec e st) as (st1 & r1 & d1 & E1 & Hs1 & Ht1 & H1).
    fold t in Hs1, H1. unfold bind. rewrite E1.
    unfold plan. cbn [fmap list_fmap concat]. fold (plan t es).
    destruct H1 as [(Hm1 & Hf1 & Hr1)|(Hp1 & Hr & Hz & Hf1 & Hr1)].
    + destruct (eval_result_cases t (e + 1)) as [Hev|(Hev & Hg & Hl)];
        rewrite Hev in Hr1; subst r1.
      * destruct (IH st1) as (st2 & r2 & d2 & es2 & E2 & Hs2 & Ht2 & Hpre & Hmp
                             & Hfile & H2).
        rewrite Hs1 in Hs2, Hmp, Hfile, H2.
        exists st2, r2, (d1 ++ d2), (e :: es2).
        split; [exact E2|]. split; [exact Hs2|].
        split; [by rewrite Ht2, Ht1, app_assoc|].
        split; [by apply prefix_cons|].
        split; [rewrite milestones_app, Hm1; by apply prefix_app|].
        assert (Hns : ∀ x, r2 = Raise x → x ≠ ValueError →
                           saves t (e + 1) = false).
        { intros x -> Hx.
          assert (Hbad : self_save_every t = 0 ∨ snapshot_path (config t) = None)
            by (destruct x; try done; by destruct H2 as (_ & ? & _)).
          unfold saves. destruct Hbad as [->|Hn]; [by rewrite andb_false_r|].
          destruct ((local_rank t =? 0) && negb (self_save_every t =? 0)
                    && ((e + 1) `mod` self_save_every t =? 0)) eqn:Hs';
            [|done].
          fold (saves t (e + 1)) in Hs'. rewrite Hs' in Hf1.
          destruct Hf1 as (p & Hp & _). congruence. }
        split.
        -- cbn [last_saved].
           destruct (last_saved t es2) as [e'|]; [exact Hfile|].
           destruct (saves t (e + 1)); [|congruence].
           destruct Hf1 as (p & Hp & Hh). exists p. split; [done|].
           by rewrite Hfile.
        -- rewrite milestones_app, Hm1.
           destruct r2 as [[]|x2].
           ++ destruct H2 as [-> Hm2]. split; [done | by rewrite Hm2].
           ++ destruct x2; try exact H2.
              ** destruct H2 as (Hr & Hz & Hf2). split; [done|]. split; [done|].
                 rewrite Hf2. pose proof (Hns _ eq_refl) as Hs.
                 rewrite Hs in Hf1; [exact Hf1 | done].
              ** destruct H2 as (Hr & Hz & Hf2). split; [done|]. split; [done|].
                 rewrite Hf2. pose proof (Hns _ eq_refl) as Hs.
                 rewrite Hs in Hf1; [exact Hf1 | done].
              ** destruct H2 as (Hr & Hz & Hf2). split; [done|]. split; [done|].
                 rewrite Hf2. pose proof (Hns _ eq_refl) as Hs.
                 rewrite Hs in Hf1; [exact Hf1 | done].
      * exists st1, (Raise ValueError), d1, [e].
        split; [done|]. split; [done|]. split; [done|].
        split; [by apply prefix_cons, prefix_nil|].
        split; [rewrite Hm1; by apply prefix_app_r|].
        split; [|done]. cbn [last_saved]. by destruct (saves t (e + 1)).
    + assert (Hend : (local_rank t = 0
                      ∧ (self_save_every t = 0 ∨ snapshot_path (config t) = None)
                      ∧ files st1 = files st)) by done.
      destruct Hr1 as [->| ->];
        (exists st1; eexists; exists d1, [];
         split; [reflexivity|]; split; [done|]; split; [done|];
         split; [apply prefix_nil|];
         split; [by apply prefix_app_r|];
         split; [done | exact Hend]).
Qed.

Lemma train_spec st :
  let t := self st in
  let es := Py.range (epochs_run t) (max_epochs (config t)) in
  ∃ st' r es1,
    train st = (st', r) ∧ self st' = t
    ∧ trace st' = trace st ++ new_events st st'
    ∧ es1 `prefix_of` es
    ∧ milestones (new_events st st') `prefix_of` plan t es
    ∧ match last_saved t es1 with
      | Some e => ∃ p, snapshot_path (config t) = Some p
                       ∧ holds_snapshot (files st') p e
      | None => files st' = files st
      end
    ∧ match r with
      | Ok _ => es1 = es ∧ milestones (new_events st st') = plan t es
      | Raise ValueError =>
          gather_ok t = false ∧ dl_len (test_dataloader t) ≠ 0
      | Raise _ =>
          local_rank t = 0
          ∧ (self_save_every t = 0 ∨ snapshot_path (config t) = None)
          ∧ files st' = files st
      end.
Proof.
  intros t es. unfold train, bind. cbn [get].
  destruct (train_loop_spec es st)
    as (st' & r & d & es1 & E & Hs & Ht & Hpre & Hmp & Hfile & Hr).
  exists st', r, es1. fold t es. split; [exact E|]. split; [exact Hs|].
  assert (Hn : new_events st st' = d).
  { unfold new_events. by rewrite Ht, drop_app_length. }
  rewrite Hn. done.
Qed.

(** The loop completes unless it runs on local rank 0 with a zero
    [save_every] or without a snapshot path, or [dist.gather] rejects the
    calls of a non-empty evaluation. *)
Lemma train_completes st :
  let t := self st in
  (local_rank t ≠ 0
   ∨ (self_save_every t ≠ 0 ∧ is_Some (snapshot_path (config t)))) →
  (gather_ok t = true ∨ dl_len (test_dataloader t) = 0) →
  (train st).2 = Ok tt.
Proof.
  intros t Hok Hg.
  destruct (train_spec st) as (st' & r & es1 & E & _ & _ & _ & _ & _ & Hr).
  fold t in Hr. rewrite E. cbn [snd]. destruct r as [[]|x]; [done|].
  destruct x.
  - destruct Hr as (Hz & Hbad & _).
    destruct Hok as [Hr|[Hse [p Hp]]]; [done|]. destruct Hbad; congruence.
  - destruct Hr as (Hz & Hbad & _).
    destruct Hok as [Hr|[Hse [p Hp]]]; [done|]. destruct Hbad; congruence.
  - destruct Hr as (Hz & Hbad & _).
    destruct Hok as [Hr|[Hse [p Hp]]]; [done|]. destruct Hbad; congruence.
  - destruct Hr as [Hgf Hl]. destruct Hg; congruence.
Qed.

(** *** The plan of the loop *)

Lemma train_passes_app a b : train_passes (a ++ b) = train_passes a ++ train_passes b.
Proof. apply omap_app. Qed.

Lemma saved_epochs_app a b : saved_epochs (a ++ b) = saved_epochs a ++ saved_epochs b.
Proof. apply omap_app. Qed.

Lemma train_passes_epoch_plan t e : train_passes (epoch_plan t e) = [e].
Proof.
  unfold epoch_plan. destruct (saves t e), (negb _); reflexivity.
Qed.

Lemma saved_epochs_epoch_plan t e :
  saved_epochs (epoch_plan t e) = if saves t e then [e] else [].
Proof.
  unfold epoch_plan. destruct (saves t e), (negb _); reflexivity.
Qed.

Lemma train_passes_plan t es : train_passes (plan t es) = (λ e, e + 1) <$> es.
Proof.
  unfold plan. induction es as [|e es IH]; [done|].
  cbn [fmap list_fmap concat]. rewrite train_passes_app, train_passes_epoch_plan.
  simpl. f_equal. exact IH.
Qed.

Lemma saved_epochs_plan t es :
  saved_epochs (plan t es) = filter (λ e, saves t e = true) ((λ e, e + 1) <$> es).
Proof.
  unfold plan. induction es as [|e es IH]; [done|].
  cbn [fmap list_fmap concat]. rewrite saved_epochs_app, saved_epochs_epoch_plan.
  rewrite filter_cons. fold (fmap (M := list) (λ e, e + 1) es).
  destruct (saves t (e + 1)); simpl.
  - f_equal. exact IH.
  - exact IH.
Qed.

Lemma elem_of_range a b x : x ∈ Py.range a b ↔ a ≤ x < b.
Proof.
  unfold Py.range. rewrite list_elem_of_fmap. split.
  - intros (i & -> & Hi). apply elem_of_seq in Hi. lia.
  - intros Hx. exists (Z.to_nat (x - a)). split; [lia|].
    apply elem_of_seq. lia.
Qed.

Lemma range_snoc a b : a < b → Py.range a b = Py.range a (b - 1) ++ [b - 1].
Proof.
  intros Hab. unfold Py.range.
  replace (Z.to_nat (b - a)) with (S (Z.to_nat (b - 1 - a))) by lia.
  rewrite seq_S, fmap_app. simpl. do 3 f_equal. lia.
Qed.

Lemma last_saved_snoc t es e :
  saves t (e + 1) = true → last_saved t (es ++ [e]) = Some (e + 1).
Proof.
  intros Hs. induction es as [|x es IH]; simpl.
  - by rewrite Hs.
  - by rewrite IH.
Qed.

Lemma last_saved_none t es : (∀ e, saves t e = false) → last_saved t es = None.
Proof.
  intros Hn. induction es as [|e es IH]; simpl; [done|]. by rewrite IH, Hn.
Qed.

(** *** Start-up *)

Lemma load_snapshot_absent st p :
  snapshot_path (config (self st)) = Some p → files st !! p = None →
  _load_snapshot st
  = (mkState (self st) (torch st) (files st) (trace st ++ [Print SnapshotNotFound]),
     Ok tt).
Proof.
  intros Hp Hf. unfold _load_snapshot, bind, get. by rewrite Hp, Hf.
Qed.

Lemma load_snapshot_present st p s :
  snapshot_path (config (self st)) = Some p →
  files st !! p = Some (FileSnapshot s) →
  model_accepts (torch st) (model_state s) = true →
  optimizer_accepts (exec (LoadModelState (model_state s)) (torch st))
    (optimizer_state s) = true →
  let t := self st in
  _load_snapshot st
  = (mkState
       (mkTrainer (config t) (local_rank t) (world_size t) (global_rank t)
          (train_dataloader t) (test_dataloader t) (finished_epoch s)
          (self_save_every t) (has_scaler t))
       (exec (LoadOptimizerState (optimizer_state s))
          (exec (LoadModelState (model_state s)) (torch st)))
       (files st)
       (trace st ++ [Torch (LoadModelState (model_state s));
                     Torch (LoadOptimizerState (optimizer_state s));
                     Print (Resuming (finished_epoch s))]),
     Ok tt).
Proof.
  intros Hp Hf Hm Ho t. unfold _load_snapshot, bind, get.
  rewrite Hp, Hf, Hm. cbn. rewrite Ho. cbn. unfold print, log. cbn.
  by rewrite <- !app_assoc.
Qed.

Lemma load_snapshot_corrupt st p :
  snapshot_path (config (self st)) = Some p →
  files st !! p = Some FileOther →
  _load_snapshot st = (st, Raise LoadError).
Proof.
  intros Hp Hf. unfold _load_snapshot, bind, get. by rewrite Hp, Hf.
Qed.

Lemma init_absent cfg LR WS R tl el w fs :
  fs !! default "snapshot.pt" (snapshot_path cfg) = None →
  __init__ cfg LR WS R tl el w fs
  = (mkState (started cfg LR WS R tl el 0) (with_scaler cfg (placed LR w)) fs
       ([Torch (ModelToDevice LR); Torch (WrapDDP LR); Print SnapshotNotFound]
        ++ scaler_events cfg),
     Ok tt).
Proof.
  intros Hf. unfold __init__. unfold bind at 1. cbn [torch_call].
  unfold bind at 1. cbn [torch_call self torch files trace].
  unfold bind at 1.
  erewrite load_snapshot_absent; [|reflexivity|exact Hf].
  unfold started, started_config, with_scaler, scaler_events, placed.
  destruct (use_amp cfg); reflexivity.
Qed.

Lemma init_present cfg LR WS R tl el w fs s :
  fs !! default "snapshot.pt" (snapshot_path cfg) = Some (FileSnapshot s) →
  model_accepts (placed LR w) (model_state s) = true →
  optimizer_accepts (exec (LoadModelState (model_state s)) (placed LR w))
    (optimizer_state s) = true →
  __init__ cfg LR WS R tl el w fs
  = (mkState (started cfg LR WS R tl el (finished_epoch s))
       (with_scaler cfg
          (exec (LoadOptimizerState (optimizer_state s))
             (exec (LoadModelState (model_state s)) (placed LR w))))
       fs
       ([Torch (ModelToDevice LR); Torch (WrapDDP LR);
         Torch (LoadModelState (model_state s));
         Torch (LoadOptimizerState (optimizer_state s));
         Print (Resuming (finished_epoch s))]
        ++ scaler_events cfg),
     Ok tt).
Proof.
  intros Hf Hm Ho. unfold __init__. unfold bind at 1. cbn [torch_call].
  unfold bind at 1. cbn [torch_call self torch files trace].
  unfold bind at 1.
  erewrite (load_snapshot_present _ _ s); [|reflexivity|exact Hf|exact Hm|exact Ho].
  unfold started, started_config, with_scaler, scaler_events, placed.
  destruct (use_amp cfg); reflexivity.
Qed.

Lemma init_corrupt cfg LR WS R tl el w fs :
  fs !! default "snapshot.pt" (snapshot_path cfg) = Some FileOther →
  __init__ cfg LR WS R tl el w fs
  = (mkState (mkTrainer (started_config cfg) LR WS R tl el 0
                (save_every cfg) false)
       (placed LR w) fs [Torch (ModelToDevice LR); Torch (WrapDDP LR)],
     Raise LoadError).
Proof.
  intros Hf. unfold __init__. unfold bind at 1. cbn [torch_call].
  unfold bind at 1. cbn [torch_call self torch files trace].
  unfold bind at 1.
  erewrite load_snapshot_corrupt; [|reflexivity|exact Hf]. done.
Qed.

Lemma init_rejected cfg LR WS R tl el w fs s :
  fs !! default "snapshot.pt" (snapshot_path cfg) = Some (FileSnapshot s) →
  let w0 := placed LR w in
  let t0 := mkTrainer (started_config cfg) LR WS R tl el 0 (save_every cfg)
              false in
  model_accepts w0 (model_state s) = false
  ∨ optimizer_accepts (exec (LoadModelState (model_state s)) w0)
      (optimizer_state s) = false →
  __init__ cfg LR WS R tl el w fs
  = (mkState t0 (exec (LoadModelState (model_state s)) w0) fs
       [Torch (ModelToDevice LR); Torch (WrapDDP LR);
        Torch (LoadModelState (model_state s))],
     Raise LoadError).
Proof.
  intros Hf w0 t0 Hrej. unfold __init__. unfold bind at 1. cbn [torch_call].
  unfold bind at 1. cbn [torch_call self torch files trace].
  unfold bind at 1. unfold _load_snapshot, bind, get.
  cbn [self config snapshot_path files torch]. rewrite Hf.
  fold (placed LR w). fold w0. cbn [torch_call self torch files trace].
  destruct (model_accepts w0 (model_state s)) eqn:Hm; [|done].
  destruct Hrej as [Hrej|Hrej]; [done|]. cbn. fold (placed LR w). fold w0.
  by rewrite Hrej.
Qed.

(** C3, as amended.  One step on a batch always completes and returns the
    forward loss.  With [train=True] it calls, in this order: the forward
    pass (gradients enabled, autocast iff [use_amp]), [zero_grad], the
    backward pass (through the scaler iff [use_amp]), gradient-norm clipping
    at [grad_norm_clip], then [optimizer.step()] or, under [use_amp],
    [scaler.step(optimizer)] and [scaler.update()].  With [train=False] it
    calls the forward pass only, with gradients disabled. *)
Theorem run_batch_order st batch tr :
  let cfg := config (self st) in
  let loss := forward_loss (torch st) batch in
  let calls :=
    Forward batch tr (use_amp cfg)
    :: (if tr then
          ZeroGrad
          :: (if use_amp cfg
              then [ScaledBackward loss; ClipGradNorm (grad_norm_clip cfg);
                    ScalerStep; ScalerUpdate]
              else [Backward loss; ClipGradNorm (grad_norm_clip cfg);
                    OptimizerStep])
        else []) in
  _run_batch batch tr st
  = (mkState (self st) (foldl (λ w c, exec c w) (torch st) calls) (files st)
       (trace st ++ (Torch <$> calls)),
     Ok loss).
Proof.
  unfold _run_batch, bind, get, when, torch_call, ret.
  destruct tr, (use_amp (config (self st))); cbn;
    rewrite <- ?app_assoc; reflexivity.
Qed.

(** X18.  At start-up, with no file at the snapshot path (["snapshot.pt"]
    when none is configured) the trainer starts at [epochs_run = 0], prints
    that no snapshot was found and raises nothing; with a snapshot there
    whose state dictionaries the wrapped model and the optimizer accept it
    loads the model state and the optimizer state of the snapshot and sets
    [epochs_run] to its [finished_epoch].  [_load_snapshot] itself leaves
    the trainer object untouched when the file is absent. *)
Theorem startup_loads_accepted_snapshot cfg LR WS R tl el w fs :
  let p := default "snapshot.pt" (snapshot_path cfg) in
  let r := __init__ cfg LR WS R tl el w fs in
  (fs !! p = None →
   r.2 = Ok tt ∧ epochs_run (self r.1) = 0
   ∧ torch r.1 = with_scaler cfg (placed LR w)
   ∧ trace r.1 = [Torch (ModelToDevice LR); Torch (WrapDDP LR);
                  Print SnapshotNotFound] ++ scaler_events cfg)
  ∧ (∀ s, fs !! p = Some (FileSnapshot s) →
          model_accepts (placed LR w) (model_state s) = true →
          optimizer_accepts (exec (LoadModelState (model_state s)) (placed LR w))
            (optimizer_state s) = true →
          r.2 = Ok tt ∧ epochs_run (self r.1) = finished_epoch s
          ∧ torch r.1
            = with_scaler cfg
                (exec (LoadOptimizerState (optimizer_state s))
                   (exec (LoadModelState (model_state s)) (placed LR w)))
          ∧ trace r.1 = [Torch (ModelToDevice LR); Torch (WrapDDP LR);
                         Torch (LoadModelState (model_state s));
                         Torch (LoadOptimizerState (optimizer_state s));
                         Print (Resuming (finished_epoch s))]
                        ++ scaler_events cfg)
  ∧ (∀ st q, snapshot_path (config (self st)) = Some q → files st !! q = None →
             (_load_snapshot st).2 = Ok tt
             ∧ self (_load_snapshot st).1 = self st
             ∧ torch (_load_snapshot st).1 = torch st
             ∧ trace (_load_snapshot st).1 = trace st ++ [Print SnapshotNotFound]).
Proof.
  intros p r. split; [|split].
  - intros Hf. unfold r. by rewrite init_absent.
  - intros s Hf Hm Ho. unfold r. by rewrite (init_present _ _ _ _ _ _ _ _ s).
  - intros st q Hq Hf. by rewrite (load_snapshot_absent st q).
Qed.

(** C4, as amended.  During [train] a snapshot is written only on a worker
    whose local rank is 0, only with a non-zero [save_every], and only for an
    epoch [e] of the run that is a multiple of [save_every]; a worker with
    another local rank leaves the files as they are.  When [train]
    completes, the milestones are those of the plan: each write comes right
    after the training pass of its epoch.  With [save_every = 2] and epochs
    1 to 4 completing on local rank 0 the writes are those of epochs 2 and
    4; the run does complete when the snapshot path is set and either the
    worker has global rank 0 (so that [dist.gather] accepts the calls of the
    evaluation) or the test loader is empty. *)
Theorem snapshot_writes st :
  let t := self st in
  let st' := (train st).1 in
  let es := Py.range (epochs_run t) (max_epochs (config t)) in
  (∀ e, e ∈ saved_epochs (milestones (new_events st st')) →
        local_rank t = 0 ∧ self_save_every t ≠ 0
        ∧ e `mod` self_save_every t = 0
        ∧ epochs_run t < e ≤ max_epochs (config t))
  ∧ (local_rank t ≠ 0 →
     files st' = files st ∧ saved_epochs (milestones (new_events st st')) = [])
  ∧ ((train st).2 = Ok tt →
     milestones (new_events st st') = plan t es
     ∧ saved_epochs (milestones (new_events st st'))
       = filter (λ e, saves t e = true) ((λ e, e + 1) <$> es))
  ∧ (local_rank t = 0 → self_save_every t = 2 → epochs_run t = 0 →
     max_epochs (config t) = 4 →
     ((train st).2 = Ok tt →
      saved_epochs (milestones (new_events st st')) = [2; 4])
     ∧ (is_Some (snapshot_path (config t)) →
        global_rank t = 0 ∨ dl_len (test_dataloader t) = 0 →
        (train st).2 = Ok tt
        ∧ saved_epochs (milestones (new_events st st')) = [2; 4])).
Proof.
  intros t st' es.
  pose proof (train_completes st) as Hcomplete. fold t in Hcomplete.
  destruct (train_spec st)
    as (st1 & r & es1 & E & Hs & Ht & Hpre & Hmp & Hfile & Hr).
  fold t es in Hr, Hs, Hpre, Hmp, Hfile.
  assert (Est : st' = st1) by (unfold st'; by rewrite E).
  assert (Er : (train st).2 = r) by (by rewrite E).
  rewrite Est, Er. rewrite Er in Hcomplete. clear Est st'.
  assert (Hsub : ∀ e, e ∈ saved_epochs (milestones (new_events st st1)) →
                      e ∈ saved_epochs (plan t es)).
  { intros e He. destruct Hmp as [k Hk]. rewrite Hk, saved_epochs_app.
    apply elem_of_app. by left. }
  assert (Hsaved : ∀ e, e ∈ saved_epochs (plan t es) →
                        saves t e = true ∧ epochs_run t < e ≤ max_epochs (config t)).
  { intros e He. rewrite saved_epochs_plan in He.
    apply list_elem_of_filter in He as [Hsv Hin].
    apply list_elem_of_fmap in Hin as (x & -> & Hx).
    apply elem_of_range in Hx. split; [done | lia]. }
  assert (Hscn : local_rank t = 0 → self_save_every t = 2 → epochs_run t = 0 →
                 max_epochs (config t) = 4 → r = Ok tt →
                 saved_epochs (milestones (new_events st st1)) = [2; 4]).
  { intros Hrk Hse Hrun Hmax ->. destruct Hr as [_ Hm].
    rewrite Hm, saved_epochs_plan. unfold es. rewrite Hrun, Hmax.
    change (Py.range 0 4) with [0; 1; 2; 3]. cbn [fmap list_fmap].
    rewrite !filter_cons, filter_nil. unfold saves. rewrite Hrk, Hse.
    reflexivity. }
  split; [|split; [|split]].
  - intros e He. destruct (Hsaved e (Hsub e He)) as [Hsv Hin].
    unfold saves in Hsv.
    apply andb_true_iff in Hsv as [Hsv Hmod].
    apply andb_true_iff in Hsv as [Hrk Hse].
    apply Z.eqb_eq in Hrk, Hmod. apply negb_true_iff, Z.eqb_neq in Hse. done.
  - intros Hrk.
    assert (Hns : ∀ e, saves t e = false).
    { intros e. unfold saves. by rewrite (proj2 (Z.eqb_neq _ _) Hrk). }
    split.
    + by rewrite (last_saved_none t es1 Hns) in Hfile.
    + destruct (saved_epochs (milestones (new_events st st1))) as [|e l] eqn:El;
        [done|].
      assert (Hin : e ∈ saved_epochs (plan t es)).
      { apply Hsub. by left. }
      destruct (Hsaved e Hin) as [Hsv _]. by rewrite Hns in Hsv.
  - intros ->. destruct Hr as [_ Hm]. split; [exact Hm|].
    by rewrite Hm, saved_epochs_plan.
  - intros Hrk Hse Hrun Hmax. split; [by apply Hscn|].
    intros Hp Hg.
    assert (r = Ok tt) as Hok.
    { apply Hcomplete.
      - right. split; [lia | done].
      - destruct Hg as [Hg|Hg]; [left | by right].
        apply gather_ok_spec. by rewrite Hrk, Hg. }
    split; [exact Hok | by apply Hscn].
Qed.

(** What a completed [train] has done. *)
Lemma train_ok st :
  let t := self st in
  let es := Py.range (epochs_run t) (max_epochs (config t)) in
  (train st).2 = Ok tt →
  self (train st).1 = t
  ∧ milestones (new_events st (train st).1) = plan t es
  ∧ match last_saved t es with
    | Some e => ∃ p, snapshot_path (config t) = Some p
                     ∧ holds_snapshot (files (train st).1) p e
    | None => files (train st).1 = files st
    end.
Proof.
  intros t es.
  destruct (train_spec st) as (st' & r & es1 & E & Hs & _ & _ & _ & Hfile & Hr).
  fold t es in Hs, Hfile, Hr. rewrite E. cbn [fst snd]. intros ->.
  destruct Hr as [-> Hm]. done.
Qed.

Lemma train_runs st :
  let t := self st in
  (local_rank t ≠ 0
   ∨ (self_save_every t ≠ 0 ∧ is_Some (snapshot_path (config t)))) →
  (gather_ok t = true ∨ dl_len (test_dataloader t) = 0) →
  ∃ st', train st = (st', Ok tt) ∧ self st' = self st
         ∧ milestones (new_events st st')
           = plan t (Py.range (epochs_run t) (max_epochs (config t)))
         ∧ match last_saved t (Py.range (epochs_run t) (max_epochs (config t))) with
           | Some e => ∃ p, snapshot_path (config t) = Some p
                            ∧ holds_snapshot (files st') p e
           | None => files st' = files st
           end.
Proof.
  intros t Hok Hg.
  pose proof (train_completes st Hok Hg) as Hdone.
  pose proof (train_ok st Hdone) as Hrun. cbv zeta in Hrun. fold t in Hrun.
  exists (train st).1. split; [|exact Hrun].
  rewrite <- Hdone. by destruct (train st).
Qed.

Lemma train_passes_prefix a b :
  a `prefix_of` b → train_passes a `prefix_of` train_passes b.
Proof. intros [k ->]. rewrite train_passes_app. by eexists. Qed.

(** C2, as amended.  The epoch loop never writes the trainer object, so
    [epochs_run] keeps the value set at start-up; it trains the epochs
    [epochs_run + 1, epochs_run + 2, ...] in order, once each, and all of
    them up to [max_epochs] when it completes.  It completes unless it runs
    on local rank 0 with a zero [save_every] or without a snapshot path, or
    [dist.gather] rejects the calls of a non-empty evaluation.  Training from
    scratch to epoch [k] on the worker of local and global rank 0 (with [k]
    a multiple of [save_every]) leaves a snapshot with [finished_epoch = k].
    A start-up that loads a snapshot sets [epochs_run] to its
    [finished_epoch]; a trainer with [epochs_run = k] whose training to
    epoch [m] completes has trained the epochs [k + 1 .. m], epoch [k] not
    among them, and ends with [epochs_run] still equal to [k]. *)
Theorem resume_runs_remaining_epochs :
  (∀ st,
     let t := self st in
     let passes := train_passes (milestones (new_events st (train st).1)) in
     let todo :=
       ((λ e, e + 1) <$> Py.range (epochs_run t) (max_epochs (config t))) in
     self (train st).1 = t
     ∧ passes `prefix_of` todo
     ∧ ((train st).2 = Ok tt →
        passes = todo
        ∧ ∀ e, e ∈ passes ↔ epochs_run t < e ≤ max_epochs (config t)))
  ∧ (∀ st,
       let t := self st in
       (local_rank t ≠ 0
        ∨ (self_save_every t ≠ 0 ∧ is_Some (snapshot_path (config t)))) →
       (gather_ok t = true ∨ dl_len (test_dataloader t) = 0) →
       (train st).2 = Ok tt)
  ∧ (∀ cfg WS tl el w fs k,
       let p := default "snapshot.pt" (snapshot_path cfg) in
       fs !! p = None →
       max_epochs cfg = k → 0 < k →
       save_every cfg ≠ 0 → k `mod` save_every cfg = 0 →
       let st0 := (__init__ cfg 0 WS 0 tl el w fs).1 in
       (__init__ cfg 0 WS 0 tl el w fs).2 = Ok tt
       ∧ epochs_run (self st0) = 0
       ∧ (train st0).2 = Ok tt
       ∧ train_passes (milestones (new_events st0 (train st0).1))
         = (λ e, e + 1) <$> Py.range 0 k
       ∧ holds_snapshot (files (train st0).1) p k
       ∧ epochs_run (self (train st0).1) = 0)
  ∧ (∀ cfg LR WS R tl el w fs s,
       fs !! default "snapshot.pt" (snapshot_path cfg) = Some (FileSnapshot s) →
       model_accepts (placed LR w) (model_state s) = true →
       optimizer_accepts (exec (LoadModelState (model_state s)) (placed LR w))
         (optimizer_state s) = true →
       let r := __init__ cfg LR WS R tl el w fs in
       r.2 = Ok tt ∧ epochs_run (self r.1) = finished_epoch s
       ∧ max_epochs (config (self r.1)) = max_epochs cfg)
  ∧ (∀ st k m,
       epochs_run (self st) = k → max_epochs (config (self st)) = m →
       (train st).2 = Ok tt →
       train_passes (milestones (new_events st (train st).1))
       = ((λ e, e + 1) <$> Py.range k m)
       ∧ (k ∉ train_passes (milestones (new_events st (train st).1)))
       ∧ epochs_run (self (train st).1) = k).
Proof.
  assert (Hloop : ∀ st,
            (train st).2 = Ok tt →
            train_passes (milestones (new_events st (train st).1))
            = (λ e, e + 1)
              <$> Py.range (epochs_run (self st)) (max_epochs (config (self st)))).
  { intros st Hdone. destruct (train_ok st Hdone) as (_ & Hm & _).
    by rewrite Hm, train_passes_plan. }
  assert (Hself : ∀ st, self (train st).1 = self st).
  { intros st. destruct (train_spec st) as (st' & r & es1 & E & Hs & _).
    by rewrite E. }
  split; [|split; [|split; [|split]]].
  - intros st t passes todo. split; [apply Hself|]. split.
    + unfold passes, todo.
      destruct (train_spec st) as (st' & r & es1 & E & _ & _ & _ & Hmp & _).
      rewrite E. cbn [fst]. rewrite <- (train_passes_plan t).
      by apply train_passes_prefix.
    + intros Hdone. unfold passes, todo. rewrite (Hloop st Hdone).
      split; [done|]. intros e. rewrite list_elem_of_fmap. split.
      * intros (x & -> & Hx). apply elem_of_range in Hx. fold t in Hx. lia.
      * intros He. exists (e - 1). split; [lia|]. apply elem_of_range.
        fold t. lia.
  - intros st t Hok Hg. by apply train_completes.
  - intros cfg WS tl el w fs k p Hf Hk Hpos Hse Hmod st0.
    pose proof (init_absent cfg 0 WS 0 tl el w fs Hf) as E0.
    unfold st0. rewrite E0. cbn [fst snd].
    set (s0 := mkState (started cfg 0 WS 0 tl el 0) _ fs _).
    assert (Hok0 : local_rank (self s0) ≠ 0
                   ∨ (self_save_every (self s0) ≠ 0
                      ∧ is_Some (snapshot_path (config (self s0)))))
      by (right; split; [exact Hse | by eexists]).
    assert (Hg0 : gather_ok (self s0) = true
                  ∨ dl_len (test_dataloader (self s0)) = 0) by (by left).
    destruct (train_runs s0 Hok0 Hg0) as (st1 & E1 & Hs1 & Hm1 & Hl1).
    rewrite E1. cbn [fst snd].
    cbn [s0 self started started_config epochs_run config max_epochs] in Hm1, Hl1.
    rewrite Hk in Hm1, Hl1.
    assert (Hsv : saves (started cfg 0 WS 0 tl el 0) (k - 1 + 1) = true).
    { unfold saves. cbn [started local_rank self_save_every].
      replace (k - 1 + 1) with k by lia. rewrite Hmod.
      by rewrite (proj2 (Z.eqb_neq _ _) Hse). }
    rewrite (range_snoc 0 k Hpos), (last_saved_snoc _ _ _ Hsv) in Hl1.
    destruct Hl1 as (p' & Hp' & s & Hfile & Hfin).
    assert (p' = p) as ->.
    { cbn in Hp'. by injection Hp'. }
    replace (k - 1 + 1) with k in Hfin by lia.
    split; [done|]. split; [done|]. split; [done|].
    split; [by rewrite Hm1, train_passes_plan|].
    split; [by exists s|]. by rewrite Hs1.
  - intros cfg LR WS R tl el w fs s Hf Hm Ho r. unfold r.
    by rewrite (init_present _ _ _ _ _ _ _ _ s Hf Hm Ho).
  - intros st k m Hk Hmax Hdone. rewrite (Hloop st Hdone), Hk, Hmax.
    split; [done|]. split.
    + rewrite list_elem_of_fmap. intros (x & Hx & Hin).
      apply elem_of_range in Hin. lia.
    + by rewrite Hself.
Qed.

End trainer_facts.


(** ** The trainer, run on the small torch side *)

Section toy_runs.
Import ToyTorch.

(** C3 fails as worded: in a training step the forward pass comes first and
    [zero_grad] second, not the other way round. *)
Lemma zero_grad_follows_forward :
  let st := (__init__ (cfg 1 1) 0 1 0 train_loader test_loader (0, 0) ∅).1 in
  let st' := (_run_batch 7 true st).1 in
  new_events st st'
  = [Torch (Forward 7 true false); Torch ZeroGrad; Torch (Backward 7);
     Torch (ClipGradNorm 1); Torch OptimizerStep]
  ∧ new_events st st'
    ≠ Torch <$> spec_training_step (config (self st)) 7 (forward_loss (torch st) 7).
Proof. split; [reflexivity | discriminate]. Qed.

(** C4 fails as worded: a worker whose global rank is 1 (the first worker
    of a second node, local rank 0) writes the snapshot. *)
Lemma local_rank_zero_writes_off_rank_zero :
  let r := process 2 2 0 2 1 ∅ in
  r.2 = Ok tt
  ∧ local_rank (self r.1) = 0 ∧ global_rank (self r.1) = 1
  ∧ global_rank (self r.1) ≠ 0
  ∧ saved_epochs (milestones (trace r.1)) = [2]
  ∧ files r.1 !! "snapshot.pt" = Some (FileSnapshot (snapshot 4 4 2)).
Proof. vm_compute. repeat split; done. Qed.

(** C4 on the small torch side: [save_every = 2], epochs 1 to 4, local
    rank 0 and global rank 0; and a worker of local rank 1, which leaves the
    files alone. *)
Lemma snapshot_writes_witness :
  (let st := (__init__ (cfg 4 2) 0 2 0 train_loader eval_loader (0, 0) ∅).1 in
   (train st).2 = Ok tt
   ∧ saved_epochs (milestones (new_events st (train st).1)) = [2; 4])
  ∧ (let st := (__init__ (cfg 4 2) 1 2 1 train_loader eval_loader (0, 0) ∅).1 in
     files (train st).1 = files st
     ∧ saved_epochs (milestones (new_events st (train st).1)) = []).
Proof.
  split.
  - pose proof (snapshot_writes
                  (__init__ (cfg 4 2) 0 2 0 train_loader eval_loader (0, 0) ∅).1)
      as (_ & _ & _ & Hscn).
    destruct Hscn as [_ Hscn];
      [reflexivity | reflexivity | reflexivity | reflexivity |].
    apply Hscn; [by eexists | left; reflexivity].
  - pose proof (snapshot_writes
                  (__init__ (cfg 4 2) 1 2 1 train_loader eval_loader (0, 0) ∅).1)
      as (_ & Hother & _).
    apply Hother. discriminate.
Defined.

End toy_runs.

(** ** The trainer on the torch side with named parameters *)

Section ddp_runs.
#[local] Existing Instances DDPTorch.types DDPTorch.ops.

Lemma length_append (s1 s2 : string) :
  String.length (s1 +:+ s2) = (String.length s1 + String.length s2)%nat.
Proof. induction s1 as [|c s1 IH]; [done|]. simpl. by f_equal. Qed.

Lemma shortest_key (ks : list string) :
  ks ≠ [] →
  ∃ k, k ∈ ks ∧ ∀ k', k' ∈ ks → (String.length k ≤ String.length k')%nat.
Proof.
  induction ks as [|k ks IH]; [done|]. intros _.
  destruct ks as [|k1 ks].
  - exists k. split; [by left|]. intros k' Hk'.
    apply list_elem_of_singleton in Hk'. by subst.
  - destruct IH as (k0 & Hin & Hmin); [done|].
    destruct (decide (String.length k ≤ String.length k0)%nat) as [Hle|Hgt].
    + exists k. split; [by left|]. intros k' Hk'.
      apply elem_of_cons in Hk' as [->|Hk']; [done|].
      specialize (Hmin k' Hk'). lia.
    + exists k0. split; [by right|]. intros k' Hk'.
      apply elem_of_cons in Hk' as [->|Hk']; [lia | by apply Hmin].
Qed.

(** The wrapper rejects a state dictionary that has the keys of the module
    it wraps: the shortest of them is not one of the wrapper's keys. *)
Lemma wrapper_rejects_module_keys (w : DDPTorch.world) (sd : list (string * Z)) :
  DDPTorch.wrapped w = true → DDPTorch.parameters w ≠ [] →
  sd.*1 = (DDPTorch.parameters w).*1 →
  DDPTorch.load_accepts w sd = false.
Proof.
  intros Hw Hne Hkeys. unfold DDPTorch.load_accepts.
  apply bool_decide_eq_false. intros [_ Hun].
  destruct (shortest_key (sd.*1)) as (k0 & Hin & Hmin).
  { rewrite Hkeys. destruct (DDPTorch.parameters w); [done | discriminate]. }
  assert (Hk0 : k0 ∈ DDPTorch.unexpected_keys w sd).
  { unfold DDPTorch.unexpected_keys. apply list_elem_of_filter. split; [|done].
    unfold DDPTorch.own_keys. intros Hown.
    apply list_elem_of_fmap in Hown as (k' & -> & Hk').
    rewrite <- Hkeys in Hk'. specialize (Hmin k' Hk').
    unfold DDPTorch.own_key in Hmin. rewrite Hw, length_append in Hmin.
    cbn in Hmin. lia. }
  rewrite Hun in Hk0. by apply elem_of_nil in Hk0.
Qed.

(** C7, the defect.  [_save_snapshot] writes the state dictionary of
    [model.module]; [_load_snapshot] hands it to [self.model], the DDP
    wrapper, whose keys carry the prefix "module.".  So a trainer started on
    a snapshot that a trainer of the same model wrote does not restore the
    run: [__init__] raises out of [load_state_dict], the optimizer state is
    the one the caller passed, [epochs_run] is still 0 and no scaler is
    created. *)
Theorem own_snapshot_rejected_at_startup
    cfg LR WS R tl el (w : DDPTorch.world) (st0 : state) (e : Z) :
  snapshot_path (config (self st0))
  = Some (default "snapshot.pt" (snapshot_path cfg)) →
  DDPTorch.parameters (torch st0) ≠ [] →
  (DDPTorch.parameters w).*1 = (DDPTorch.parameters (torch st0)).*1 →
  let fs := files (_save_snapshot e st0).1 in
  let r := __init__ cfg LR WS R tl el w fs in
  holds_snapshot fs (default "snapshot.pt" (snapshot_path cfg)) e
  ∧ r.2 = Raise LoadError
  ∧ epochs_run (self r.1) = 0
  ∧ DDPTorch.optimizer (torch r.1) = DDPTorch.optimizer w
  ∧ has_scaler (self r.1) = false.
Proof.
  intros Hp Hne Hkeys fs r.
  set (p := default "snapshot.pt" (snapshot_path cfg)) in *.
  set (s := mkSnapshot (state_dict (torch st0))
              (optimizer_state_dict (torch st0)) e).
  assert (Hfs : fs !! p = Some (FileSnapshot s)).
  { unfold fs. rewrite (save_snapshot_spec e st0 p Hp). cbn [fst files].
    by rewrite lookup_insert_eq. }
  split; [by exists s|].
  assert (Hrej : model_accepts (placed LR w) (model_state s) = false).
  { apply wrapper_rejects_module_keys; [done | | ].
    - cbn. intros Hnil. rewrite Hnil in Hkeys.
      destruct (DDPTorch.parameters (torch st0)); [done | discriminate].
    - cbn. by rewrite Hkeys. }
  unfold r.
  rewrite (init_rejected cfg LR WS R tl el w fs s Hfs (or_introl Hrej)).
  done.
Qed.

(** The failing input of C7: train two epochs from scratch with
    [save_every = 2], then start a trainer of the same model on the files the
    first one left. *)
Lemma own_snapshot_rejected_at_startup_witness :
  let r1 := DDPTorch.process 2 2 ∅ in
  let r2 := __init__ (DDPTorch.cfg 4 2) 0 1 0 DDPTorch.train_loader
              DDPTorch.test_loader DDPTorch.model (files r1.1) in
  r1.2 = Ok tt
  ∧ holds_snapshot (files r1.1) "snapshot.pt" 2
  ∧ r2.2 = Raise LoadError
  ∧ epochs_run (self r2.1) = 0
  ∧ DDPTorch.optimizer (torch r2.1) = DDPTorch.optimizer DDPTorch.model
  ∧ DDPTorch.parameters (torch r2.1) = DDPTorch.parameters DDPTorch.model.
Proof.
  intros r1 r2.
  set (st0 := (_run_epoch 2 TrainLoader true
                 (train_body 0
                    (__init__ (DDPTorch.cfg 2 2) 0 1 0 DDPTorch.train_loader
                       DDPTorch.test_loader DDPTorch.model ∅).1).1).1).
  assert (Hfiles : files r1.1 = files (_save_snapshot 2 st0).1)
    by (vm_compute; reflexivity).
  split; [vm_compute; reflexivity|].
  destruct (own_snapshot_rejected_at_startup (DDPTorch.cfg 4 2) 0 1 0
              DDPTorch.train_loader DDPTorch.test_loader DDPTorch.model st0 2)
    as (Hh & Hr & He & Hw & _);
    [vm_compute; reflexivity
    | vm_compute; discriminate
    | vm_compute; reflexivity |].
  unfold r2. rewrite Hfiles.
  split; [exact Hh|]. split; [exact Hr|]. split; [exact He|].
  split; [exact Hw|]. rewrite <- Hfiles. vm_compute. reflexivity.
Defined.

(** X18 on this torch side: a start without a file, and a start on a
    snapshot of epoch 3 whose keys are those of the wrapper. *)
Lemma startup_loads_accepted_snapshot_witness :
  (let r := __init__ (DDPTorch.cfg 4 2) 0 1 0 DDPTorch.train_loader
              DDPTorch.test_loader DDPTorch.model ∅ in
   r.2 = Ok tt ∧ epochs_run (self r.1) = 0
   ∧ trace r.1 = [Torch (ModelToDevice 0); Torch (WrapDDP 0);
                  Print SnapshotNotFound])
  ∧ (let s := DDPTorch.snapshot [("module.weight", 7)] 9 3 in
     let r := __init__ (DDPTorch.cfg 4 2) 0 1 0 DDPTorch.train_loader
                DDPTorch.test_loader DDPTorch.model
                {[ "snapshot.pt" := FileSnapshot s ]} in
     r.2 = Ok tt ∧ epochs_run (self r.1) = 3
     ∧ torch r.1 = DDPTorch.mkWorld [("weight", 7)] 9 true).
Proof.
  split.
  - destruct (startup_loads_accepted_snapshot (DDPTorch.cfg 4 2) 0 1 0
                DDPTorch.train_loader DDPTorch.test_loader DDPTorch.model ∅)
      as (Habs & _ & _).
    destruct Habs as (Hr & He & _ & Ht); [vm_compute; reflexivity|].
    split; [exact Hr|]. split; [exact He | exact Ht].
  - intros s.
    destruct (startup_loads_accepted_snapshot (DDPTorch.cfg 4 2) 0 1 0
                DDPTorch.train_loader DDPTorch.test_loader DDPTorch.model
                {[ "snapshot.pt" := FileSnapshot s ]})
      as (_ & Hpre & _).
    destruct (Hpre s) as (Hr & He & Hw & _);
      [vm_compute; reflexivity | vm_compute; reflexivity
      | vm_compute; reflexivity |].
    split; [exact Hr|]. split; [exact He | exact Hw].
Defined.

(** C2 fails as worded.  Training two epochs from scratch leaves
    [epochs_run] at 0, not 2; and a trainer started on a snapshot of epoch 1
    (its keys those of the wrapper) and trained to epoch 2 trains epoch 2
    only and ends with [epochs_run] at 1, not 2: the counter is not advanced
    after an epoch. *)
Lemma counter_stays_at_resume_point :
  (let r := DDPTorch.process 2 1 ∅ in
   r.2 = Ok tt
   ∧ train_passes (milestones (trace r.1)) = [1; 2]
   ∧ epochs_run (self r.1) = 0
   ∧ epochs_run (self r.1) ≠ 2)
  ∧ (let s := DDPTorch.snapshot [("module.weight", 7)] 9 1 in
     let r := DDPTorch.process 2 1 {[ "snapshot.pt" := FileSnapshot s ]} in
     r.2 = Ok tt
     ∧ train_passes (milestones (trace r.1)) = [2]
     ∧ epochs_run (self r.1) = 1
     ∧ epochs_run (self r.1) ≠ 2).
Proof. vm_compute. repeat split; done. Qed.

(** C2 on this torch side: training from scratch to epoch 2 with
    [save_every = 2]; and a start on a snapshot of epoch 2 (its keys those of
    the wrapper) followed by training to epoch 4. *)
Lemma resume_runs_remaining_epochs_witness :
  (let st0 := (__init__ (DDPTorch.cfg 2 2) 0 1 0 DDPTorch.train_loader
                 DDPTorch.test_loader DDPTorch.model ∅).1 in
   (train st0).2 = Ok tt
   ∧ train_passes (milestones (new_events st0 (train st0).1)) = [1; 2]
   ∧ holds_snapshot (files (train st0).1) "snapshot.pt" 2
   ∧ epochs_run (self (train st0).1) = 0)
  ∧ (let s := DDPTorch.snapshot [("module.weight", 7)] 9 2 in
     let r := __init__ (DDPTorch.cfg 4 2) 0 1 0 DDPTorch.train_loader
                DDPTorch.test_loader DDPTorch.model
                {[ "snapshot.pt" := FileSnapshot s ]} in
     r.2 = Ok tt ∧ epochs_run (self r.1) = 2
     ∧ train_passes (milestones (new_events r.1 (train r.1).1)) = [3; 4]
     ∧ (2 ∉ train_passes (milestones (new_events r.1 (train r.1).1)))
     ∧ epochs_run (self (train r.1).1) = 2).
Proof.
  destruct resume_runs_remaining_epochs
    as (_ & Hcomplete & Hscratch & Hstart & Hresume).
  split.
  - destruct (Hscratch (DDPTorch.cfg 2 2) 1 DDPTorch.train_loader
                DDPTorch.test_loader DDPTorch.model ∅ 2)
      as (_ & _ & Hdone & Hpasses & Hsnap & Hrun);
      [vm_compute; reflexivity | vm_compute; reflexivity | lia
      | vm_compute; discriminate | vm_compute; reflexivity |].
    split; [exact Hdone|]. split; [exact Hpasses|].
    split; [exact Hsnap | exact Hrun].
  - intros s r.
    destruct (Hstart (DDPTorch.cfg 4 2) 0 1 0 DDPTorch.train_loader
                DDPTorch.test_loader DDPTorch.model
                {[ "snapshot.pt" := FileSnapshot s ]} s)
      as (Hr & He & Hmax);
      [vm_compute; reflexivity | vm_compute; reflexivity
      | vm_compute; reflexivity |].
    fold r in Hr, He, Hmax.
    assert (Hdone : (train r.1).2 = Ok tt).
    { apply Hcomplete;
        [right; split; [vm_compute; discriminate | vm_compute; by eexists]
        | right; vm_compute; reflexivity]. }
    destruct (Hresume r.1 2 4 He Hmax Hdone) as (Hpasses & Hnot & Hrun).
    split; [exact Hr|]. split; [exact He|]. split; [exact Hpasses|].
    split; [exact Hnot | exact Hrun].
Defined.

End ddp_runs.

(** ** Further properties of the label-masking tokenizer *)

(** A slice assignment of [e - s] copies of [x] never shortens the list, and
    each element of the result is [x] or the element the list had at that
    position: when the list grows, it grows at its end. *)
Lemma slice_assign_fill {A} (l : list A) (s e : nat) (x : A) :
  let r := Py.slice_assign l s e (Py.repeat_list x (Z.of_nat e - Z.of_nat s)) in
  (length l ≤ length r)%nat
  ∧ ∀ i v, r !! i = Some v → v = x ∨ l !! i = Some v.
Proof.
  cbv zeta. unfold Py.slice_assign, Py.repeat_list.
  set (lo := (s `min` length l)%nat).
  set (hi := (lo `max` (e `min` length l))%nat).
  set (k := Z.to_nat (Z.of_nat e - Z.of_nat s)).
  assert (Hlo : length (take lo l) = lo) by (rewrite length_take; lia).
  split.
  - rewrite !length_app, Hlo, length_replicate, length_drop. lia.
  - intros i v Hi. apply lookup_app_Some in Hi as [Hi|[Hge Hi]].
    + apply lookup_take_Some in Hi as [Hi _]. by right.
    + rewrite Hlo in Hge, Hi.
      apply lookup_app_Some in Hi as [Hi|[Hge' Hi]].
      * apply lookup_replicate in Hi as [-> _]. by left.
      * rewrite length_replicate in Hge', Hi. rewrite lookup_drop in Hi.
        right. pose proof (lookup_lt_Some _ _ _ Hi) as Hlt.
        replace (hi + (i - lo - k))%nat with i in Hi by lia. exact Hi.
Qed.

Lemma mask_labels_fill tokenizer messages rest : ∀ idx (lab inputs : list Z),
  (length inputs ≤ length lab)%nat →
  (∀ i v, lab !! i = Some v → v = INGORE_INDEX ∨ inputs !! i = Some v) →
  (length inputs ≤ length (mask_labels tokenizer messages idx rest lab))%nat
  ∧ ∀ i v, mask_labels tokenizer messages idx rest lab !! i = Some v →
           v = INGORE_INDEX ∨ inputs !! i = Some v.
Proof.
  induction rest as [|m rest IH]; intros idx lab inputs Hlen Hlab; simpl.
  - done.
  - apply IH; unfold mask_step; destruct (negb (is_assistant m)); try done.
    + etrans; [exact Hlen|]. apply slice_assign_fill.
    + intros i v Hi. apply slice_assign_fill in Hi as [->|Hi]; [by left|].
      by apply Hlab.
Qed.

(** X1. Whatever the chat template does (no render contract assumed), the
    returned labels are never shorter than the returned input ids, and with
    no [max_length] or a non-negative one every label is IGNORE or the input
    id at the same position. *)
Theorem labels_are_ignore_or_input tokenizer messages config (h : heap) :
  let r := preprocess_chat_dataset tokenizer messages config h in
  let ex := view r.2 r.1 in
  (length (ex_input_ids ex) ≤ length (ex_labels ex))%nat
  ∧ ((∀ n, config !! "max_length" = Some n → 0 ≤ n) →
     ∀ i v, ex_labels ex !! i = Some v →
            v = INGORE_INDEX ∨ ex_input_ids ex !! i = Some v).
Proof.
  intros r ex.
  assert (Hex : ex = tokenized tokenizer messages config)
    by apply preprocess_view.
  destruct (mask_labels_fill tokenizer messages messages 0
              (rendered tokenizer messages) (rendered tokenizer messages))
    as [Hlen Hlab]; [done | by right |].
  rewrite Hex. unfold tokenized.
  destruct (config !! "max_length") as [n|].
  - unfold truncated, masked. cbn [ex_input_ids ex_labels]. split.
    + unfold Py.slice_to. destruct (n <? 0); rewrite !length_take; lia.
    + intros Hn i v. rewrite !slice_to_take by (by apply Hn).
      intros Hi. apply lookup_take_Some in Hi as [Hi Hlt].
      apply Hlab in Hi as [->|Hi]; [by left|]. right.
      by rewrite lookup_take_lt.
  - split; [exact Hlen|]. intros _. exact Hlab.
Qed.

Lemma labels_are_ignore_or_input_witness :
  let r := preprocess_chat_dataset Toy.shrinking [mkTurn "user" "hi"]
             {["max_length" := 6]} ∅ in
  let ex := view r.2 r.1 in
  (length (ex_input_ids ex) ≤ length (ex_labels ex))%nat
  ∧ ∀ i v, ex_labels ex !! i = Some v →
           v = INGORE_INDEX ∨ ex_input_ids ex !! i = Some v.
Proof.
  intros r ex.
  destruct (labels_are_ignore_or_input Toy.shrinking [mkTurn "user" "hi"]
              {["max_length" := 6]} ∅) as [Hlen Hlab].
  split; [exact Hlen|]. apply Hlab.
  intros n Hn. rewrite lookup_singleton_eq in Hn. injection Hn as <-. lia.
Defined.

(** X2. With [max_length = n] the input ids are a prefix of the rendering
    of the whole conversation: its first [n] tokens when [n >= 0] (so at most
    [n] tokens, none when [n = 0]), and the rendering without its last [-n]
    tokens when [n < 0] (a negative bound raises nothing); the attention mask
    is as many ones. *)
Theorem truncated_size tokenizer messages config (h : heap) n :
  config !! "max_length" = Some n →
  let r := preprocess_chat_dataset tokenizer messages config h in
  let ex := view r.2 r.1 in
  let full := apply_chat_template tokenizer messages true in
  let kept := if n <? 0 then Z.to_nat (Z.of_nat (length full) + n)
              else Z.to_nat n in
  ex_input_ids ex = take kept full
  ∧ ex_attention_mask ex = replicate (kept `min` length full)%nat 1
  ∧ (0 ≤ n → Z.of_nat (length (ex_input_ids ex)) ≤ n).
Proof.
  intros Hcfg r ex full kept.
  assert (Hex : ex = tokenized tokenizer messages config)
    by apply preprocess_view.
  rewrite Hex. unfold tokenized. rewrite Hcfg.
  unfold truncated, masked, rendered. cbn [ex_input_ids ex_attention_mask].
  fold full. unfold Py.slice_to, Py.repeat_list, kept.
  rewrite length_replicate, Nat2Z.id.
  split; [by destruct (n <? 0)|]. split.
  - destruct (n <? 0); by rewrite take_replicate.
  - intros Hn. destruct (Z.ltb_spec n 0); [lia|]. rewrite length_take. lia.
Qed.

Lemma truncated_size_witness :
  let r := preprocess_chat_dataset Toy.tokenizer Toy.conversation
             {["max_length" := -2]} ∅ in
  ex_input_ids (view r.2 r.1) = take 7 (Toy.render Toy.conversation true).
Proof.
  apply (truncated_size Toy.tokenizer Toy.conversation {["max_length" := -2]}
           ∅ (-2)).
  reflexivity.
Defined.

Lemma mask_labels_all_assistant tokenizer messages rest : ∀ idx lab,
  (∀ m, m ∈ rest → is_assistant m = true) →
  mask_labels tokenizer messages idx rest lab = lab.
Proof.
  induction rest as [|m rest IH]; intros idx lab Hall; simpl; [done|].
  unfold mask_step. rewrite (Hall m) by left. simpl.
  apply IH. intros m' Hm'. apply Hall. by right.
Qed.

(** X5. A conversation with no turn other than assistant turns (the empty
    conversation included) is not masked at all: the labels are the input
    ids, under every configuration and every template. *)
Theorem assistant_only_unmasked tokenizer messages config (h : heap) :
  (∀ m, m ∈ messages → role m = "assistant") →
  let r := preprocess_chat_dataset tokenizer messages config h in
  ex_labels (view r.2 r.1) = ex_input_ids (view r.2 r.1).
Proof.
  intros Hall r.
  assert (Hex : view r.2 r.1 = tokenized tokenizer messages config)
    by apply preprocess_view.
  rewrite Hex. unfold tokenized.
  assert (Hm : ex_labels (masked tokenizer messages)
               = ex_input_ids (masked tokenizer messages)).
  { apply mask_labels_all_assistant. intros m Hm.
    by apply role_assistant, Hall. }
  destruct (config !! "max_length") as [n|]; [|exact Hm].
  unfold truncated. cbn [ex_labels ex_input_ids]. by rewrite Hm.
Qed.

Lemma assistant_only_unmasked_witness :
  let r := preprocess_chat_dataset Toy.tokenizer [mkTurn "assistant" "4"] ∅ ∅ in
  ex_labels (view r.2 r.1) = ex_input_ids (view r.2 r.1).
Proof.
  apply (assistant_only_unmasked Toy.tokenizer [mkTurn "assistant" "4"] ∅ ∅).
  intros m Hm. apply list_elem_of_singleton in Hm. by subst m.
Defined.

Section tail.
Variable tokenizer : Tokenizer.
Variable messages : list Turn.
Hypothesis contract : prefix_consistent tokenizer messages.

(** Under the contract an unmasked position keeps its input id, whatever
    the configuration. *)
Lemma unmasked_position config i :
  masked_by tokenizer messages 0 messages i = false →
  ex_labels (tokenized tokenizer messages config) !! i
  = ex_input_ids (tokenized tokenizer messages config) !! i.
Proof.
  intros Hi. destruct (masked_labels_spec tokenizer messages contract)
    as [Hlen Hlab].
  assert (Hm : ex_labels (masked tokenizer messages) !! i
               = ex_input_ids (masked tokenizer messages) !! i)
    by (by rewrite Hlab, Hi).
  unfold tokenized. destruct (config !! "max_length") as [k|]; [|exact Hm].
  unfold truncated. cbn [ex_labels ex_input_ids].
  apply slice_to_lookup_eq; [exact Hlen | by intros _].
Qed.

(** Every masked span ends within the rendering without generation
    prompt. *)
Lemma end_of_before_prompt idx :
  (idx < length messages)%nat →
  (message_end_idx tokenizer messages idx
   ≤ length (apply_chat_template tokenizer messages false))%nat.
Proof.
  intros Hi. rewrite <- (plen_full tokenizer messages false).
  destruct (decide (S idx = length messages)) as [E|Hne].
  - rewrite end_of_eq, E.
    destruct (next_is_assistant messages idx) eqn:Hn; [|done].
    apply next_is_assistant_spec in Hn as (m & Hm & _).
    apply lookup_lt_Some in Hm. lia.
  - etrans; [apply end_of_upper; [exact contract | lia]|].
    apply plen_mono; [exact contract | lia | lia].
Qed.

Lemma tail_unmasked i :
  (length (apply_chat_template tokenizer messages false) ≤ i)%nat →
  masked_by tokenizer messages 0 messages i = false.
Proof.
  intros Hi. apply not_true_is_false. intros Hm.
  apply masked_by_spec in Hm as (k & m & Hk & _ & Hspan). simpl in Hspan.
  pose proof (end_of_before_prompt k (lookup_lt_Some _ _ _ Hk)). lia.
Qed.

(** When no turn is an assistant turn, the spans of the first [k] turns
    cover the rendering of these turns. *)
Lemma spans_cover k :
  (∀ m, m ∈ messages → is_assistant m = false) →
  (1 ≤ k ≤ length messages)%nat →
  ∀ i, (i < plen tokenizer messages k false)%nat →
       ∃ idx, (idx < k)%nat
              ∧ (message_start_idx tokenizer messages idx ≤ i
                 < message_end_idx tokenizer messages idx)%nat.
Proof.
  intros Hall. induction k as [|k IH]; intros Hk i Hi; [lia|].
  assert (Hend : ∀ idx, message_end_idx tokenizer messages idx
                        = plen tokenizer messages (S idx) false).
  { intros idx. rewrite end_of_eq.
    destruct (next_is_assistant messages idx) eqn:Hn; [|done].
    apply next_is_assistant_spec in Hn as (m & Hm & Ha).
    rewrite (Hall m) in Ha; [done|]. by apply list_elem_of_lookup_2 in Hm. }
  destruct (decide (k = 0%nat)) as [->|Hk0].
  - exists 0%nat. split; [lia|]. rewrite Hend.
    split; [unfold message_start_idx; simpl; lia | exact Hi].
  - destruct (decide (i < plen tokenizer messages k false)%nat) as [Hlt|Hge].
    + destruct (IH ltac:(lia) i Hlt) as (idx & Hidx & Hspan).
      exists idx. split; [lia | done].
    + exists k. split; [lia|]. rewrite Hend. split; [|done].
      unfold message_start_idx. destruct (Nat.eqb_spec k 0); [lia|].
      unfold plen in Hge. lia.
Qed.

End tail.

(** X3. Under the render contract, every position at or beyond the length
    of the rendering without generation prompt keeps its input id as label:
    the generation prompt that closes [input_ids] is never masked, also when
    the conversation ends with a user turn. *)
Theorem trailing_prompt_unmasked tokenizer messages config (h : heap) :
  prefix_consistent tokenizer messages →
  let r := preprocess_chat_dataset tokenizer messages config h in
  let ex := view r.2 r.1 in
  ∀ i, (length (apply_chat_template tokenizer messages false) ≤ i)%nat →
       ex_labels ex !! i = ex_input_ids ex !! i.
Proof.
  intros Hc r ex i Hi.
  assert (Hex : ex = tokenized tokenizer messages config)
    by apply preprocess_view.
  rewrite Hex. apply unmasked_position; [exact Hc|].
  by apply tail_unmasked.
Qed.

Lemma trailing_prompt_unmasked_witness :
  let r := preprocess_chat_dataset Toy.tokenizer [mkTurn "user" "hi"] ∅ ∅ in
  let ex := view r.2 r.1 in
  ex_labels ex !! 3%nat = ex_input_ids ex !! 3%nat
  ∧ ex_labels ex !! 4%nat = ex_input_ids ex !! 4%nat.
Proof.
  intros r ex.
  split;
    (apply (trailing_prompt_unmasked Toy.tokenizer [mkTurn "user" "hi"] ∅ ∅);
     [apply toy_prefix_consistent | simpl; lia]).
Defined.

(** X4. Under the render contract, a non-empty conversation without any
    assistant turn is masked exactly up to the end of its rendering without
    generation prompt: the labels are that many IGNORE followed by the input
    ids of the generation prompt. *)
Theorem no_assistant_masks_all_turns tokenizer messages config (h : heap) :
  prefix_consistent tokenizer messages →
  messages ≠ [] →
  (∀ m, m ∈ messages → role m ≠ "assistant") →
  config !! "max_length" = None →
  let r := preprocess_chat_dataset tokenizer messages config h in
  let ex := view r.2 r.1 in
  let turns := length (apply_chat_template tokenizer messages false) in
  ex_labels ex = replicate turns INGORE_INDEX ++ drop turns (ex_input_ids ex).
Proof.
  intros Hc Hne Hall Hcfg r ex turns.
  assert (Hex : ex = tokenized tokenizer messages config)
    by apply preprocess_view.
  rewrite Hex. unfold tokenized. rewrite Hcfg.
  destruct (masked_labels_spec tokenizer messages Hc) as [Hlen Hlab].
  assert (Hle : (turns ≤ length (rendered tokenizer messages))%nat).
  { unfold turns, rendered. rewrite <- !(plen_full tokenizer messages).
    by apply plen_prompt. }
  assert (Hall' : ∀ m, m ∈ messages → is_assistant m = false).
  { intros m Hm. by apply role_not_assistant, Hall. }
  apply list_eq. intros i. rewrite Hlab. cbn [masked ex_input_ids].
  destruct (decide (i < turns)%nat) as [Hlt|Hge].
  - rewrite lookup_app_l by (by rewrite length_replicate).
    rewrite lookup_replicate_2 by done.
    assert (Hm : masked_by tokenizer messages 0 messages i = true).
    { apply masked_by_spec.
      assert (Hk : (1 ≤ length messages ≤ length messages)%nat)
        by (destruct messages; [done | simpl; lia]).
      assert (Hi' : (i < plen tokenizer messages (length messages) false)%nat)
        by (rewrite plen_full; exact Hlt).
      destruct (spans_cover tokenizer messages (length messages) Hall' Hk i Hi')
        as (idx & Hidx & Hspan).
      destruct (lookup_lt_is_Some_2 messages idx Hidx) as [m Hm].
      exists idx, m. split; [done|]. split; [|done].
      apply Hall'. by apply list_elem_of_lookup_2 in Hm. }
    rewrite Hm. simpl. by rewrite bool_decide_true by lia.
  - rewrite (tail_unmasked tokenizer messages Hc) by (fold turns; lia).
    simpl. rewrite lookup_app_r by (rewrite length_replicate; lia).
    rewrite length_replicate, lookup_drop. f_equal. lia.
Qed.

Lemma no_assistant_masks_all_turns_witness :
  let r := preprocess_chat_dataset Toy.tokenizer
             [mkTurn "system" "be brief"; mkTurn "user" "hi"] ∅ ∅ in
  let ex := view r.2 r.1 in
  ex_labels ex = replicate 6 INGORE_INDEX ++ drop 6 (ex_input_ids ex).
Proof.
  apply (no_assistant_masks_all_turns Toy.tokenizer
           [mkTurn "system" "be brief"; mkTurn "user" "hi"] ∅ ∅).
  - apply toy_prefix_consistent.
  - discriminate.
  - intros m Hm. apply elem_of_cons in Hm as [->|Hm]; [discriminate|].
    apply list_elem_of_singleton in Hm as ->. discriminate.
  - reflexivity.
Defined.

(** ** The formatter and the template-style dataset *)

(** What the formatter returns, read from its result. *)
Lemma template_conversation (example : gmap string string) ex :
  apply_input_output_template example = Some ex →
  ∃ q a, example !! "Question" = Some q
         ∧ conversation ex = [mkTurn "user" (nl +:+ q +:+ nl); mkTurn "assistant" a].
Proof.
  unfold apply_input_output_template. intros Hex.
  destruct (example !! "Question") as [q|]; [|done].
  destruct (example !! "Complex_CoT") as [cot|]; [|simpl in Hex].
  2:{ by rewrite lookup_singleton_eq in Hex. }
  destruct (example !! "Response") as [resp|]; [|simpl in Hex].
  2:{ by rewrite lookup_singleton_eq in Hex. }
  simpl in Hex. rewrite lookup_singleton_eq in Hex. simpl in Hex.
  rewrite lookup_insert_eq in Hex. simpl in Hex.
  rewrite lookup_insert_ne in Hex by done.
  rewrite lookup_singleton_eq in Hex. simpl in Hex.
  injection Hex as <-. eexists q, _. split; reflexivity.
Qed.

Lemma template_none_iff (example : gmap string string) :
  apply_input_output_template example = None
  ↔ example !! "Question" = None ∨ example !! "Complex_CoT" = None
    ∨ example !! "Response" = None.
Proof.
  unfold apply_input_output_template.
  destruct (example !! "Question") as [q|]; [|naive_solver].
  destruct (example !! "Complex_CoT") as [cot|].
  2:{ simpl. rewrite lookup_singleton_eq. simpl. naive_solver. }
  destruct (example !! "Response") as [resp|].
  2:{ simpl. rewrite lookup_singleton_eq. simpl. naive_solver. }
  simpl. rewrite lookup_singleton_eq. simpl.
  rewrite lookup_insert_eq. simpl.
  rewrite lookup_insert_ne by done. rewrite lookup_singleton_eq. simpl.
  split; [done|]. by intros [?|[?|?]].
Qed.

(** X6. The formatter fails (a [KeyError]) exactly when the record lacks one
    of the columns "Question", "Complex_CoT" and "Response"; other columns
    are neither required nor an obstacle. *)
Theorem formatter_fails_on_missing_column (example : gmap string string) :
  apply_input_output_template example = None
  ↔ example !! "Question" = None ∨ example !! "Complex_CoT" = None
    ∨ example !! "Response" = None.
Proof. apply template_none_iff. Qed.

(** The labels of a conversation of one user turn and one assistant turn. *)
Lemma two_turn_labels tokenizer u a :
  let messages := [mkTurn "user" u; mkTurn "assistant" a] in
  let e := length (apply_chat_template tokenizer [mkTurn "user" u] true) in
  (e ≤ length (rendered tokenizer messages))%nat →
  ex_labels (masked tokenizer messages)
  = replicate e INGORE_INDEX ++ drop e (rendered tokenizer messages).
Proof.
  intros messages e He. unfold masked. cbn [ex_labels].
  unfold messages at 2. simpl. unfold mask_step. simpl.
  unfold message_start_idx, message_end_idx, next_is_assistant. simpl.
  fold e. unfold Py.slice_assign, Py.repeat_list. simpl.
  replace (Z.to_nat (Z.of_nat e - Z.of_nat 0)) with e by lia.
  by replace (e `min` length (rendered tokenizer messages))%nat with e by lia.
Qed.

Lemma record_of_lookup table row c :
  record_of table row !! c
  = if decide (c ∈ column_names table) then Some (py_str (row c)) else None.
Proof.
  unfold record_of. induction (column_names table) as [|c0 cs IH].
  - done.
  - cbn [fmap list_fmap list_to_map foldr uncurry curry fst snd].
    destruct (decide (c0 = c)) as [->|Hne].
    + rewrite lookup_insert_eq. rewrite decide_True by left. done.
    + rewrite lookup_insert_ne by done. rewrite IH.
      destruct (decide (c ∈ cs)) as [Hin|Hnin].
      * by rewrite decide_True by (by right).
      * rewrite decide_False; [done|].
        intros Hc. apply elem_of_cons in Hc as [->|Hc]; done.
Qed.

(** The formatter fails on the records of a table exactly when the table
    lacks one of the three columns. *)
Lemma template_on_table table row :
  apply_input_output_template (record_of table row) = None
  ↔ ∃ c, c ∈ ["Question"; "Complex_CoT"; "Response"] ∧ c ∉ column_names table.
Proof.
  rewrite template_none_iff, !record_of_lookup. split.
  - intros [Hq|[Hc|Hr]].
    + exists "Question". split; [by left|]. by destruct (decide _).
    + exists "Complex_CoT". split; [by right; left|]. by destruct (decide _).
    + exists "Response". split; [by right; right; left|]. by destruct (decide _).
  - intros (c & Hc & Hnin).
    apply elem_of_cons in Hc as [->|Hc]; [left; by rewrite decide_False|].
    apply elem_of_cons in Hc as [->|Hc]; [right; left; by rewrite decide_False|].
    apply list_elem_of_singleton in Hc as ->. right; right.
    by rewrite decide_False.
Qed.

(** X7. With the table [load_dataset] returned, building the dataset fails
    when the configuration has no "num_proc" or one that is not positive,
    and when the table has records and lacks one of the three columns; with
    [Dataset.map] calling the function record by record it fails in no other
    case.  In particular a record with a [None] field does not fail and is
    not skipped.  When the construction succeeds the dataset has one item
    per record. *)
Theorem sft_dataset_all_or_nothing config tokenizer table :
  (SFTDataset config tokenizer table = None
   ↔ config !! "num_proc" = None
     ∨ (∃ n, config !! "num_proc" = Some n ∧ n ≤ 0)
     ∨ (rows table ≠ []
        ∧ ∃ c, c ∈ ["Question"; "Complex_CoT"; "Response"]
               ∧ c ∉ column_names table))
  ∧ ∀ dataset, SFTDataset config tokenizer table = Some dataset →
               __len__ dataset = Z.of_nat (length (rows table)).
Proof.
  unfold SFTDataset. split.
  - destruct (config !! "num_proc") as [np|]; simpl; [|by split; [left|]].
    destruct (Z.leb_spec np 0) as [Hle|Hgt].
    { split; [|done]. intros _. right; left. by exists np. }
    destruct (mapM (λ row, apply_input_output_template (record_of table row))
                (rows table)) as [formatted|] eqn:Hm; simpl.
    + split; [done|]. intros [?|[(n & Hn & Hle)|(Hne & Hcol)]]; [done| |].
      * injection Hn as <-. lia.
      * apply mapM_Some_1 in Hm.
        destruct (rows table) as [|row rs]; [done|].
        apply Forall2_cons_inv_l in Hm as (ex & exs & Hex & _ & _).
        apply (proj2 (template_on_table table row)) in Hcol. congruence.
    + split; [|done]. intros _. right; right.
      apply mapM_None_1, Exists_exists in Hm as (row & Hin & Hnone).
      split; [by destruct (rows table); [apply elem_of_nil in Hin|]|].
      by apply (proj1 (template_on_table table row)) in Hnone.
  - intros dataset Hds.
    destruct (config !! "num_proc") as [np|]; simpl in Hds; [|done].
    destruct (np <=? 0); [done|].
    destruct (mapM (λ row, apply_input_output_template (record_of table row))
                (rows table)) as [formatted|] eqn:Hm; simpl in Hds; [|done].
    injection Hds as <-. unfold __len__. rewrite length_fmap.
    apply mapM_Some_1, Forall2_length in Hm. by rewrite Hm.
Qed.

Lemma sft_dataset_all_or_nothing_witness :
  SFTDataset {[ "num_proc" := 0 ]} Toy.tokenizer toy_table = None
  ∧ SFTDataset {[ "num_proc" := 1 ]} Toy.tokenizer
      (mkTable ["Question"; "Response"] (rows toy_table)) = None
  ∧ ∀ dataset,
      SFTDataset {[ "num_proc" := 1 ]} Toy.tokenizer toy_table = Some dataset →
      __len__ dataset = 2.
Proof.
  split; [|split].
  - apply (proj1 (sft_dataset_all_or_nothing {[ "num_proc" := 0 ]} Toy.tokenizer
                    toy_table)).
    right; left. exists 0. split; [reflexivity | lia].
  - apply (proj1 (sft_dataset_all_or_nothing {[ "num_proc" := 1 ]} Toy.tokenizer
                    (mkTable ["Question"; "Response"] (rows toy_table)))).
    right; right. split; [discriminate|].
    exists "Complex_CoT". split; [by right; left|].
    cbn. intros Hin. apply elem_of_cons in Hin as [?|Hin]; [done|].
    by apply list_elem_of_singleton in Hin.
  - apply (proj2 (sft_dataset_all_or_nothing {[ "num_proc" := 1 ]} Toy.tokenizer
                    toy_table)).
Defined.

(** X8. Without [max_length], item [i] of the dataset is the tokenization of
    the conversation formatted from record [i]: its input ids render the user
    turn holding the question (the text "None" when the field is [None]) and
    one assistant turn, and (when the rendering of the user turn with
    generation prompt is no longer than that) its labels are IGNORE on the
    user turn and the generation prompt and the input ids from there on. *)
Theorem sft_item_masks_prompt config tokenizer table dataset i item :
  SFTDataset config tokenizer table = Some dataset →
  config !! "max_length" = None →
  dataset !! i = Some item →
  ∃ row a,
    rows table !! i = Some row
    ∧ let user := mkTurn "user" (nl +:+ py_str (row "Question") +:+ nl) in
      let e := length (apply_chat_template tokenizer [user] true) in
      ex_input_ids item
      = apply_chat_template tokenizer [user; mkTurn "assistant" a] true
      ∧ ((e ≤ length (ex_input_ids item))%nat →
         ex_labels item
         = replicate e INGORE_INDEX ++ drop e (ex_input_ids item)).
Proof.
  unfold SFTDataset. intros Hds Hcfg Hi.
  destruct (config !! "num_proc") as [np|]; simpl in Hds; [|done].
  destruct (np <=? 0); [done|].
  destruct (mapM (λ row, apply_input_output_template (record_of table row))
              (rows table)) as [formatted|] eqn:Hm; simpl in Hds; [|done].
  injection Hds as <-.
  apply list_lookup_fmap_Some in Hi as (ex & -> & Hex).
  apply mapM_Some_1 in Hm.
  destruct (Forall2_lookup_r _ _ _ _ _ Hm Hex) as (row & Hrow & Hfmt).
  destruct (template_conversation _ ex Hfmt) as (q & a & Hq & Hconv).
  rewrite record_of_lookup in Hq.
  destruct (decide ("Question" ∈ column_names table)); [|done].
  injection Hq as <-.
  exists row, a. split; [done|].
  cbv zeta. rewrite preprocess_view. unfold tokenized. rewrite Hcfg, Hconv.
  split; [done|]. intros He. cbn [masked ex_input_ids] in *.
  by apply two_turn_labels.
Qed.

Lemma sft_item_masks_prompt_witness :
  let item :=
    {| ex_input_ids := [11; 106; 12; 21; 22; 146; 12; 21; 22];
       ex_labels := [-100; -100; -100; -100; -100; 146; 12; 21; 22];
       ex_attention_mask := [1; 1; 1; 1; 1; 1; 1; 1; 1] |} in
  (∃ dataset, SFTDataset {[ "num_proc" := 1 ]} Toy.tokenizer toy_table
              = Some dataset ∧ dataset !! 1%nat = Some item)
  ∧ ∃ row a,
      rows toy_table !! 1%nat = Some row
      ∧ row "Question" = None
      ∧ let user := mkTurn "user" (nl +:+ "None" +:+ nl) in
        let e := length (apply_chat_template Toy.tokenizer [user] true) in
        ex_input_ids item
        = apply_chat_template Toy.tokenizer [user; mkTurn "assistant" a] true
        ∧ ((e ≤ length (ex_input_ids item))%nat →
           ex_labels item
           = replicate e INGORE_INDEX ++ drop e (ex_input_ids item)).
Proof.
  intros item.
  destruct (SFTDataset {[ "num_proc" := 1 ]} Toy.tokenizer toy_table)
    as [dataset|] eqn:Hds; [|by vm_compute in Hds].
  assert (Hitem : dataset !! 1%nat = Some item).
  { vm_compute in Hds. injection Hds as <-. reflexivity. }
  split; [by exists dataset|].
  destruct (sft_item_masks_prompt {[ "num_proc" := 1 ]} Toy.tokenizer toy_table
              dataset 1%nat item Hds) as (row & a & Hrow & Hitems);
    [reflexivity | exact Hitem |].
  injection Hrow as <-. eexists _, a. split; [reflexivity|].
  split; [reflexivity | exact Hitems].
Defined.

(** ** Further properties of the trainer *)

Section trainer_more.
Context `{TorchOps}.














(** One iteration of the epoch loop, exactly. *)
Lemma train_body_exact e st :
  let t := self st in
  let st1 := (_run_epoch (e + 1) TrainLoader true st).1 in
  let eval := when (negb (dl_len (test_dataloader t) =? 0))
                (_run_epoch (e + 1) TestLoader false) in
  train_body e st
  = if local_rank t =? 0 then
      if self_save_every t =? 0 then (st1, Raise ZeroDivisionError)
      else if (e + 1) `mod` self_save_every t =? 0 then
        match snapshot_path (config t) with
        | None => (st1, Raise TypeError)
        | Some p =>
            let s := mkSnapshot (state_dict (torch st1))
                       (optimizer_state_dict (torch st1)) (e + 1) in
            eval (mkState t (torch st1) (<[p := FileSnapshot s]> (files st))
                    (trace st1 ++ [TorchSave p s; Print (SnapshotSaved (e + 1))]))
        end
      else eval st1
    else eval st1.
Proof.
  intros t st1 eval. unfold train_body.
  assert (E1 : _run_epoch (e + 1) TrainLoader true st = (st1, Ok tt)).
  { unfold st1. rewrite run_epoch_exact. cbn [fst].
    by rewrite pass_result_train. }
  assert (Hs1 : self st1 = t) by (unfold st1; by rewrite run_epoch_exact).
  assert (Hf1 : files st1 = files st) by (unfold st1; by rewrite run_epoch_exact).
  unfold bind at 1. rewrite E1. unfold bind at 1. cbn [get]. rewrite Hs1.
  fold eval.
  destruct (local_rank t =? 0).
  - destruct (self_save_every t =? 0); [done|].
    destruct ((e + 1) `mod` self_save_every t =? 0); cbn [when].
    + destruct (snapshot_path (config t)) as [p|] eqn:Hp.
      * unfold bind. rewrite (save_snapshot_spec _ _ p) by (by rewrite Hs1).
        by rewrite Hs1, Hf1.
      * unfold bind. by rewrite save_snapshot_none by (by rewrite Hs1).
    + done.
  - done.
Qed.

Lemma eval_stage_exact epoch (t : Trainer) st :
  self st = t →
  let r := when (negb (dl_len (test_dataloader t) =? 0))
             (_run_epoch epoch TestLoader false) st in
  self r.1 = t ∧ files r.1 = files st ∧ r.2 = eval_result t epoch.
Proof.
  intros Hs. cbv zeta.
  destruct (eval_stage_spec epoch t st Hs) as (st' & d & E & Hs' & Hf & _).
  by rewrite E.
Qed.

(** The trainer object is kept, the files change by at most the snapshot,
    whose content is read from the torch side the training pass left. *)
Lemma train_body_files e st :
  let t := self st in
  let st1 := (_run_epoch (e + 1) TrainLoader true st).1 in
  let r := train_body e st in
  self r.1 = t
  ∧ files r.1
    = match snapshot_path (config t) with
      | Some p =>
          if saves t (e + 1)
          then <[p := FileSnapshot
                        (mkSnapshot (state_dict (torch st1))
                           (optimizer_state_dict (torch st1)) (e + 1))]>
                 (files st)
          else files st
      | None => files st
      end
  ∧ (local_rank t = 0 → self_save_every t = 0 →
     r = (st1, Raise ZeroDivisionError)).
Proof.
  intros t st1 r. unfold r. rewrite train_body_exact. fold t st1.
  assert (Hs1 : self st1 = t) by (unfold st1; by rewrite run_epoch_exact).
  assert (Hf1 : files st1 = files st) by (unfold st1; by rewrite run_epoch_exact).
  pose proof (eval_stage_exact (e + 1) t st1 Hs1) as (He1 & He2 & _).
  unfold saves.
  destruct (Z.eqb_spec (local_rank t) 0) as [Hr|Hr]; cbn [andb].
  - destruct (Z.eqb_spec (self_save_every t) 0) as [Hz|Hz]; cbn [andb negb].
    + cbn [fst snd]. split; [done|].
      split; [by destruct (snapshot_path (config t))|]. done.
    + destruct ((e + 1) `mod` self_save_every t =? 0).
      * destruct (snapshot_path (config t)) as [p|] eqn:Hp.
        -- cbv zeta.
           match goal with
           | |- context [when ?b ?m ?st2] =>
               pose proof (eval_stage_exact (e + 1) t st2 eq_refl)
                 as (He3 & He4 & _)
           end.
           cbv zeta in He3, He4. rewrite He3, He4. cbn [self files].
           split; [done|]. split; [done|]. intros _ Hz'. done.
        -- cbn [fst snd]. split; [done|]. split; [done|]. intros _ Hz'. done.
      * cbv zeta in He1, He2. rewrite He1, He2, Hf1.
        split; [done|]. split; [by destruct (snapshot_path (config t))|].
        intros _ Hz'. done.
  - cbv zeta in He1, He2. rewrite He1, He2, Hf1.
    split; [done|]. split; [by destruct (snapshot_path (config t))|].
    intros Hr'. done.
Qed.

(** X12. When an iteration of the epoch loop writes a snapshot, the
    snapshot holds the model and optimizer state dictionaries as the
    training pass of that epoch left them (the evaluation pass comes after
    the write, and changes no file whether it completes or raises), with
    [finished_epoch] the epoch just trained; nothing else changes in the
    files. *)
Theorem snapshot_taken_after_training_pass e st p :
  snapshot_path (config (self st)) = Some p →
  local_rank (self st) = 0 →
  self_save_every (self st) ≠ 0 →
  (e + 1) `mod` self_save_every (self st) = 0 →
  let st1 := (_run_epoch (e + 1) TrainLoader true st).1 in
  files (train_body e st).1
  = <[p := FileSnapshot
             (mkSnapshot (state_dict (torch st1))
                (optimizer_state_dict (torch st1)) (e + 1))]> (files st).
Proof.
  intros Hp Hr Hz Hm st1.
  destruct (train_body_files e st) as (_ & Hf & _). rewrite Hf, Hp.
  unfold saves. rewrite Hr, Hm. cbn.
  by rewrite (proj2 (Z.eqb_neq _ _) Hz).
Qed.

Lemma train_loop_files es : ∀ st,
  let r := for_each es train_body st in
  self r.1 = self st
  ∧ ∀ q, snapshot_path (config (self st)) ≠ Some q →
         files r.1 !! q = files st !! q.
Proof.
  induction es as [|e es IH]; intros st; cbn [for_each]; [done|].
  destruct (train_body_files e st) as (Hs & Hf & _).
  unfold bind. destruct (train_body e st) as [st1 [[]|x]]; cbn [fst snd] in *.
  - destruct (IH st1) as [Hs' Hf']. cbv zeta in *.
    split; [congruence|]. intros q Hq.
    rewrite Hf' by (by rewrite Hs). rewrite Hf.
    destruct (snapshot_path (config (self st))) as [p|]; [|done].
    destruct (saves (self st) (e + 1)); [|done].
    rewrite lookup_insert_ne; [done | congruence].
  - split; [done|]. intros q Hq. rewrite Hf.
    destruct (snapshot_path (config (self st))) as [p|]; [|done].
    destruct (saves (self st) (e + 1)); [|done].
    rewrite lookup_insert_ne; [done | congruence].
Qed.

(** X13. Whether it completes or raises, [train] changes no file but the one
    at the snapshot path, and it leaves the trainer object, [epochs_run]
    included, as it found it. *)
Theorem train_writes_only_snapshot_path st q :
  snapshot_path (config (self st)) ≠ Some q →
  files (train st).1 !! q = files st !! q
  ∧ self (train st).1 = self st.
Proof.
  intros Hq. unfold train, bind. cbn [get].
  destruct (train_loop_files
              (Py.range (epochs_run (self st)) (max_epochs (config (self st))))
              st) as [Hs Hf].
  split; [by apply Hf | exact Hs].
Qed.


Lemma range_empty a b : b ≤ a → Py.range a b = [].
Proof. intros Hab. unfold Py.range. by replace (Z.to_nat (b - a)) with 0%nat by lia. Qed.


Lemma train_nothing st :
  max_epochs (config (self st)) ≤ epochs_run (self st) →
  train st = (st, Ok tt).
Proof.
  intros Hle. unfold train, bind. cbn [get]. by rewrite range_empty.
Qed.

(** X15. Starting a process on the snapshot of a run that has already reached
    [max_epochs] (its [finished_epoch] is [max_epochs] or more) loads the
    snapshot, and [train] then does nothing: no pass, no call, no write. *)
Theorem restart_of_finished_run cfg LR WS R tl el w fs s :
  fs !! default "snapshot.pt" (snapshot_path cfg) = Some (FileSnapshot s) →
  model_accepts (placed LR w) (model_state s) = true →
  optimizer_accepts (exec (LoadModelState (model_state s)) (placed LR w))
    (optimizer_state s) = true →
  max_epochs cfg ≤ finished_epoch s →
  let r := __init__ cfg LR WS R tl el w fs in
  r.2 = Ok tt ∧ epochs_run (self r.1) = finished_epoch s
  ∧ train r.1 = (r.1, Ok tt).
Proof.
  intros Hf Hm Ho Hle r. unfold r.
  rewrite (init_present _ _ _ _ _ _ _ _ s Hf Hm Ho). cbn [fst snd].
  split; [done|]. split; [done|]. by apply train_nothing.
Qed.

(** X16. Start-up fails, and no scaler is created, when the file at the
    snapshot path does not load, or the model or the optimizer rejects the
    state it is given.  Nothing is rolled back: when [load_state_dict] of
    the model raises, or the optimizer rejects its state, the model has
    already copied the entries of the snapshot's dictionary that it has keys
    for. *)
Theorem startup_failures cfg LR WS R tl el w fs :
  let p := default "snapshot.pt" (snapshot_path cfg) in
  let r := __init__ cfg LR WS R tl el w fs in
  (fs !! p = Some FileOther →
   r.2 = Raise LoadError ∧ torch r.1 = placed LR w
   ∧ trace r.1 = [Torch (ModelToDevice LR); Torch (WrapDDP LR)])
  ∧ (∀ s, fs !! p = Some (FileSnapshot s) →
          model_accepts (placed LR w) (model_state s) = false →
          r.2 = Raise LoadError
          ∧ torch r.1 = exec (LoadModelState (model_state s)) (placed LR w)
          ∧ epochs_run (self r.1) = 0
          ∧ has_scaler (self r.1) = false)
  ∧ (∀ s, fs !! p = Some (FileSnapshot s) →
          model_accepts (placed LR w) (model_state s) = true →
          optimizer_accepts (exec (LoadModelState (model_state s)) (placed LR w))
            (optimizer_state s) = false →
          r.2 = Raise LoadError
          ∧ torch r.1 = exec (LoadModelState (model_state s)) (placed LR w)
          ∧ epochs_run (self r.1) = 0
          ∧ has_scaler (self r.1) = false).
Proof.
  intros p r. split; [|split].
  - intros Hf. unfold r.
    by rewrite (init_corrupt cfg LR WS R tl el w fs Hf).
  - intros s Hf Hm. unfold r.
    by rewrite (init_rejected cfg LR WS R tl el w fs s Hf (or_introl Hm)).
  - intros s Hf Hm Ho. unfold r.
    by rewrite (init_rejected cfg LR WS R tl el w fs s Hf (or_intror Ho)).
Qed.




End trainer_more.

(** ** The further properties, run on the small torch side *)

Section toy_more.
#[local] Existing Instances ToyTorch.types ToyTorch.ops.



Lemma snapshot_taken_after_training_pass_witness :
  let st := toy_started 4 2 0 in
  files (train_body 1 st).1
  = <[ "snapshot.pt" :=
         FileSnapshot
           (mkSnapshot
              (state_dict (torch (_run_epoch 2 TrainLoader true st).1))
              (optimizer_state_dict (torch (_run_epoch 2 TrainLoader true st).1))
              2) ]> (files st).
Proof.
  intros st.
  apply (snapshot_taken_after_training_pass 1 st "snapshot.pt");
    [reflexivity | reflexivity | discriminate | reflexivity].
Defined.

Lemma train_writes_only_snapshot_path_witness :
  let st := toy_started 4 2 0 in
  files (train st).1 !! "other.pt" = files st !! "other.pt"
  ∧ self (train st).1 = self st.
Proof.
  intros st.
  apply (train_writes_only_snapshot_path st "other.pt").
  discriminate.
Defined.


Lemma restart_of_finished_run_witness :
  let fs : gmap string File :=
    {[ "snapshot.pt" := FileSnapshot (ToyTorch.snapshot 8 8 4) ]} in
  let r := __init__ (ToyTorch.cfg 4 2) 0 1 0 ToyTorch.train_loader
             ToyTorch.test_loader (0, 0) fs in
  r.2 = Ok tt ∧ epochs_run (self r.1) = 4 ∧ train r.1 = (r.1, Ok tt).
Proof.
  intros fs.
  apply (restart_of_finished_run (ToyTorch.cfg 4 2) 0 1 0 ToyTorch.train_loader
           ToyTorch.test_loader (0, 0) fs (ToyTorch.snapshot 8 8 4));
    [reflexivity | reflexivity | reflexivity | simpl; lia].
Defined.

Lemma startup_failures_witness :
  (let fs : gmap string File := {[ "snapshot.pt" := FileOther ]} in
   (__init__ (ToyTorch.cfg 4 2) 0 1 0 ToyTorch.train_loader
      ToyTorch.test_loader (0, 0) fs).2 = Raise LoadError)
  ∧ (let s := DDPTorch.snapshot [("module.weight", 7); ("extra", 1)] 9 3 in
     let r := @__init__ DDPTorch.types DDPTorch.ops (DDPTorch.cfg 4 2) 0 1 0
                DDPTorch.train_loader DDPTorch.test_loader DDPTorch.model
                {[ "snapshot.pt" := FileSnapshot s ]} in
     r.2 = Raise LoadError
     ∧ torch r.1 = DDPTorch.mkWorld [("weight", 7)] 0 true
     ∧ epochs_run (self r.1) = 0)
  ∧ (let fs : gmap string File :=
       {[ "snapshot.pt" := FileSnapshot (ToyTorch.snapshot 5 (-1) 3) ]} in
     let r := @__init__ ToyTorch.types PickyTorch.ops (ToyTorch.cfg 4 2) 0 1 0
                ToyTorch.train_loader ToyTorch.test_loader (0, 0) fs in
     r.2 = Raise LoadError ∧ torch r.1 = (5, 0)
     ∧ epochs_run (self r.1) = 0).
Proof.
  split; [|split].
  - intros fs.
    destruct (startup_failures (ToyTorch.cfg 4 2) 0 1 0 ToyTorch.train_loader
                ToyTorch.test_loader (0, 0) fs) as (Hc & _).
    apply Hc. reflexivity.
  - intros s.
    destruct (@startup_failures DDPTorch.types DDPTorch.ops (DDPTorch.cfg 4 2)
                0 1 0 DDPTorch.train_loader DDPTorch.test_loader DDPTorch.model
                {[ "snapshot.pt" := FileSnapshot s ]})
      as (_ & Hm & _).
    destruct (Hm s) as (Hr & Hw & He & _);
      [vm_compute; reflexivity | vm_compute; reflexivity |].
    split; [exact Hr|]. split; [exact Hw | exact He].
  - intros fs.
    destruct (@startup_failures ToyTorch.types PickyTorch.ops (ToyTorch.cfg 4 2)
                0 1 0 ToyTorch.train_loader ToyTorch.test_loader (0, 0) fs)
      as (_ & _ & Ho).
    destruct (Ho (ToyTorch.snapshot 5 (-1) 3)) as (Hr & Hw & He & _);
      [reflexivity | reflexivity | reflexivity |].
    split; [exact Hr|]. split; [exact Hw | exact He].
Defined.


End toy_more.
